(** * Query orchestration of the usage viz-wall renderer

    A shallow embedding of [src/renderer/App.tsx]: the static query
    catalogue, the construction of the Prometheus request URL, the decoding
    of the response envelope, and the fan-out over the whole catalogue with
    [Promise.all].

    JavaScript strings are modelled as byte strings (the catalogue is plain
    ASCII; a non-ASCII code point is represented by its UTF-8 bytes, which is
    the form in which [URLSearchParams] serialises it).  Numbers that the
    program handles are integers and are modelled in [Z]; [NaN] is written
    out as [None] where the program can produce it. *)

From Stdlib Require Import ZArith Lia Bool Ascii String List Permutation DecimalString.
From stdpp Require Import base decidable option list strings.

Set Warnings "-register-all".

Local Open Scope string_scope.
Local Open Scope Z_scope.

(** ** JavaScript values *)

(** The value of a parsed JSON document, extended with [undefined], which is
    what a missing property reads as and what a handler without a [return]
    produces. *)
Inductive JSValue : Type :=
| JUndefined
| JNull
| JBool (b : bool)
| JNum (n : Z)
| JStr (s : string)
| JArr (items : list JSValue)
| JObj (fields : list (string * JSValue)).

(** An [Error] object: the constructor's name and the message. *)
Record JSError : Type := mkError { err_name : string; err_message : string }.

(** A computation that either throws or returns. *)
Inductive Completion (A : Type) : Type :=
| Throw (e : JSError)
| Return (a : A).
Arguments Throw {A} e.
Arguments Return {A} a.

(** ** The data model (lines 12-24) *)

(** [interface QueryObject].  An optional field that is absent reads as
    [undefined], here [None].  TypeScript types are erased at run time, so
    [range_unit] holds whatever string the definition carries; the declared
    type admits only ["day"]. *)
Record QueryObject : Type := mkQuery {
  label : string;
  name : string;
  query : string;
  range_offset : option Z;
  range_unit : option string;
  range_step : option string
}.

(** [interface PrometheusResult]. *)
Record PrometheusResult : Type := mkResult {
  metric : list (string * string);
  value : Z * string
}.

(** The object literal [{ query: query_object, data: ... }] that
    [fetch_all_prometheus_data] builds for every catalogue entry. *)
Record AggregatedEntry : Type := mkEntry {
  entry_query : QueryObject;
  entry_data : JSValue
}.

(** ** The catalogue (lines 26-87) *)

Definition dquote : string := String "034"%char EmptyString.

(** [quoted s] is [s] between two double quotes. *)
Definition quoted (s : string) : string := dquote +:+ s +:+ dquote.

Definition instant_query (l n q : string) : QueryObject :=
  mkQuery l n q None None None.

Definition queries : list QueryObject := Eval cbv in
  [ instant_query "Free CPUs (non-GPU) by location" "cpus_free"
      ("sum(slurm_node_cpus{state=" +:+ quoted "free" +:+ ",nodes!="
         +:+ quoted "gpu" +:+ "}) by (cluster,nodes)");
    instant_query "Allocated CPUs (non-GPU) by location" "cpus_allocated"
      ("sum(slurm_node_cpus{state=" +:+ quoted "alloc" +:+ ",nodes!="
         +:+ quoted "gpu" +:+ "}) by (cluster,nodes)");
    instant_query "Percent Free CPUs (non-GPU) by location" "cpus_percent_free"
      ("sum(slurm_node_cpus{state=" +:+ quoted "free" +:+ ",nodes!="
         +:+ quoted "gpu" +:+ "}) by (cluster,nodes) / sum(slurm_node_cpus{nodes!="
         +:+ quoted "gpu" +:+ "}) by (cluster,nodes)");
    instant_query "GPUs free by location" "gpus_free"
      ("sum(slurm_node_gpus{state=" +:+ quoted "free" +:+ ",nodes="
         +:+ quoted "gpu" +:+ "}) by (cluster)");
    instant_query "GPUs allocated by location" "gpus_allocated"
      ("sum(slurm_node_gpus{state=" +:+ quoted "alloc" +:+ ",nodes="
         +:+ quoted "gpu" +:+ "}) by (cluster)");
    instant_query "Slurm pending job requests" "slurm_pending_jobs"
      ("sum(slurm_job_count{state=" +:+ quoted "pending" +:+ "}) by (account)") ].

Definition range_queries : list QueryObject := Eval cbv in
  [ mkQuery "Rusty queue wait time over 24 hours" "rusty_wait_time"
      ("sum(slurm_job_seconds{cluster=" +:+ quoted "iron" +:+ ",state="
         +:+ quoted "pending" +:+ "}) by (account)")
      (Some 1) (Some "day") (Some "15m");
    mkQuery "Rusty queue length over 24 hours" "rusty_queue_length"
      ("sum(slurm_job_count{state=" +:+ quoted "pending" +:+ "}) by (account)")
      (Some 1) (Some "day") (Some "15m");
    mkQuery "Node counts by center for the last 7 Days" "node_count"
      ("sum(slurm_job_nodes{state=" +:+ quoted "running" +:+ "}) by (account)")
      (Some 7) (Some "day") (Some "90m") ].

(** ** Strings and numbers of the run-time library *)

(** The decimal digits of an integer, with its sign. *)
Definition Z_to_string (z : Z) : string := NilZero.string_of_int (Z.to_int z).

(** The [n] least significant decimal digits of [z], most significant first
    (zero padded). *)
Fixpoint pad_digits (n : nat) (z : Z) : string :=
  match n with
  | O => EmptyString
  | S n' => pad_digits n' (z / 10) +:+ String (ascii_of_N (48 + Z.to_N (z mod 10))) EmptyString
  end.

(** [Array.prototype.join]. *)
Fixpoint join (sep : string) (parts : list string) : string :=
  match parts with
  | [] => EmptyString
  | [p] => p
  | p :: rest => p +:+ sep +:+ join sep rest
  end.

(** *** Numbers as text

    [JNum n] stands for the Number value of the integer [n], that is the
    double nearest to [n], which is what [JSON.parse] gives for the integer
    literal; numbers with a fraction are not among the values modelled.
    [Number::toString] prints the shortest decimal that reads back as the
    number, padded with zeros up to 21 digits and in exponent form beyond. *)

(** The Number value of a non-negative integer [a]: the nearest number with
    a significand of 53 bits, ties going to the even significand; [None]
    stands for an infinity. *)
Definition nearest_double (a : Z) : option Z :=
  if a <? 2 ^ 53 then Some a
  else
    let e := Z.log2 a - 52 in
    let q := a / 2 ^ e in
    let r := a mod 2 ^ e in
    let half := 2 ^ (e - 1) in
    let m := if (half <? r) || ((r =? half) && Z.odd q) then q + 1 else q in
    if 2 ^ 1024 <=? m * 2 ^ e then None else Some (m * 2 ^ e).

(** Whether the decimal [c] reads back as the number [x], for [x] at least
    [2 ^ 53]: [c] lies within half a step of [x] on either side (the step
    below a power of two being half the step above), the ends counting when
    the significand of [x] is even. *)
Definition reads_back_as (x c : Z) : bool :=
  let e := Z.log2 x - 52 in
  let m := x / 2 ^ e in
  let above := 2 ^ e in
  let below := if m =? 2 ^ 52 then 2 ^ (e - 1) else 2 ^ e in
  if Z.even m
  then (2 * x - below <=? 2 * c) && (2 * c <=? 2 * x + above)
  else (2 * x - below <? 2 * c) && (2 * c <? 2 * x + above).

(** The number of decimal digits of a positive integer. *)
Definition decimal_length (x : Z) : Z := Z.of_nat (String.length (Z_to_string x)).

(** Of two candidates [(s, n)], standing for [s * 10 ^ (n - k)], the one
    nearer to [x]; the even [s] when they are as near. *)
Definition nearer (x k : Z) (c1 c2 : Z * Z) : Z * Z :=
  let v1 := fst c1 * 10 ^ (snd c1 - k) in
  let v2 := fst c2 * 10 ^ (snd c2 - k) in
  let d1 := Z.abs (v1 - x) in
  let d2 := Z.abs (v2 - x) in
  if d1 <? d2 then c1
  else if d2 <? d1 then c2
  else if Z.even (fst c1) then c1 else c2.

(** The candidates with [k] digits that read back as [x]: among the two
    multiples of [10 ^ (n - k)] around [x], and for one digit also
    [10 ^ n]. *)
Definition candidates (x n k : Z) : list (Z * Z) :=
  let p := n - k in
  let lo := x / 10 ^ p in
  List.filter (fun c => reads_back_as x (fst c * 10 ^ (snd c - k)))
    ((lo, n)
     :: (if lo + 1 <? 10 ^ k then [(lo + 1, n)] else [])
     ++ (if k =? 1 then [(1, n + 1)] else [])).

(** The shortest decimal that reads back as [x]: its digits [s], their
    number [k] and the position [n] of the decimal point.  Seventeen digits
    always suffice. *)
Fixpoint shortest_digits (fuel : nat) (x n k : Z) : Z * Z * Z :=
  match fuel with
  | O => (x, n, n)
  | S fuel' =>
      if n <? k then (x, n, n)
      else match candidates x n k with
           | [] => shortest_digits fuel' x n (k + 1)
           | c :: cs =>
               (fst (fold_left (nearer x k) cs c), k, snd (fold_left (nearer x k) cs c))
           end
  end.

Fixpoint zeros (n : nat) : string :=
  match n with
  | O => EmptyString
  | S n' => String "0" (zeros n')
  end.

(** [Number::toString] of a positive number without fraction. *)
Definition positive_to_string (x : Z) : string :=
  if x <? 2 ^ 53 then Z_to_string x
  else
    let '(s, k, n) := shortest_digits 17 x (decimal_length x) 1 in
    let digits := Z_to_string s in
    if n <=? 21 then digits +:+ zeros (Z.to_nat (n - k))
    else
      match digits with
      | String d rest =>
          String d (match rest with
                    | EmptyString => EmptyString
                    | _ => String "." rest
                    end)
          +:+ "e+" +:+ Z_to_string (n - 1)
      | EmptyString => EmptyString
      end.

(** [Number::toString] of the Number value of the integer [n]. *)
Definition Number_toString (n : Z) : string :=
  let text a := match nearest_double a with
                | Some x => positive_to_string x
                | None => "Infinity"
                end in
  if n =? 0 then "0"
  else if n <? 0 then "-" +:+ text (- n)
  else text n.

Definition TypeError (msg : string) : JSError := mkError "TypeError" msg.
Definition RangeError (msg : string) : JSError := mkError "RangeError" msg.

(** [new Error(msg)]. *)
Definition Error (msg : string) : JSError := mkError "Error" msg.

(** Whether the object with the properties [fields] has an own property
    [k]. *)
Definition has_own (k : string) (fields : list (string * JSValue)) : bool :=
  List.existsb (fun f => String.eqb (fst f) k) fields.

(** [ToString], as a template literal applies it.  An array gives its
    elements joined by commas, [null] and [undefined] counting for nothing.
    An object gives [[object Object]] through the inherited [toString]; when
    it has an own property [toString], which in parsed data is never a
    function, the conversion falls back on [valueOf], finds no primitive
    there either, and throws. *)
Fixpoint ToString (v : JSValue) : Completion string :=
  match v with
  | JUndefined => Return "undefined"
  | JNull => Return "null"
  | JBool true => Return "true"
  | JBool false => Return "false"
  | JNum n => Return (Number_toString n)
  | JStr s => Return s
  | JArr items =>
      match (fix elements (xs : list JSValue) : Completion (list string) :=
               match xs with
               | [] => Return []
               | x :: rest =>
                   match match x with
                         | JUndefined | JNull => Return EmptyString
                         | _ => ToString x
                         end with
                   | Throw e => Throw e
                   | Return s =>
                       match elements rest with
                       | Throw e => Throw e
                       | Return ss => Return (s :: ss)
                       end
                   end
               end) items with
      | Throw e => Throw e
      | Return parts => Return (join "," parts)
      end
  | JObj fields =>
      if has_own "toString" fields
      then Throw (TypeError "Cannot convert object to primitive value")
      else Return "[object Object]"
  end.

(** [v === s] for a string literal [s]. *)
Definition strict_eq_string (v : JSValue) (s : string) : bool :=
  match v with
  | JStr t => String.eqb t s
  | _ => false
  end.

(** Own property [k] of an object whose properties are [fields]. *)
Fixpoint own_property (k : string) (fields : list (string * JSValue)) : JSValue :=
  match fields with
  | [] => JUndefined
  | (k', v) :: rest => if String.eqb k k' then v else own_property k rest
  end.

(** The member access [v.k], for the property names the program reads
    ([status], [data], [result], [error]): reading a property of [undefined]
    or [null] throws, an object gives its own property, and no primitive,
    array or prototype has a property of one of these names. *)
Definition get (v : JSValue) (k : string) : Completion JSValue :=
  match v with
  | JUndefined => Throw (TypeError ("Cannot read properties of undefined (reading '" +:+ k +:+ "')"))
  | JNull => Throw (TypeError ("Cannot read properties of null (reading '" +:+ k +:+ "')"))
  | JObj fields => Return (own_property k fields)
  | _ => Return JUndefined
  end.

(** [err.statusText] for a caught [Error] object: the property does not
    exist. *)
Definition error_statusText (e : JSError) : JSValue := JUndefined.

(** [Error(v)] called as a function: the message is [ToString v] unless [v]
    is [undefined], which leaves the message empty. *)
Definition Error_of (v : JSValue) : Completion JSError :=
  match v with
  | JUndefined => Return (Error EmptyString)
  | _ => match ToString v with
         | Throw e => Throw e
         | Return msg => Return (Error msg)
         end
  end.

(** ** [URLSearchParams] and [URL] *)

(** The list of name-value pairs of a [URLSearchParams] object; order and
    duplicates are kept. *)
Definition URLSearchParams : Type := list (string * string).

(** [search_params.set(k, v)]: the first pair named [k] takes the value [v]
    and the later ones are removed; without such a pair, [(k, v)] is
    appended. *)
Fixpoint URLSearchParams_set (k v : string) (ps : URLSearchParams) : URLSearchParams :=
  match ps with
  | [] => [(k, v)]
  | (k', v') :: rest =>
      if String.eqb k' k
      then (k, v) :: List.filter (fun p => negb (String.eqb (fst p) k)) rest
      else (k', v') :: URLSearchParams_set k v rest
  end.

Definition hex_digit (n : N) : ascii :=
  if (n <? 10)%N then ascii_of_N (48 + n) else ascii_of_N (55 + n).

(** [%XX], with upper-case hexadecimal digits. *)
Definition percent_encode_byte (c : ascii) : string :=
  let n := N_of_ascii c in
  String "%" (String (hex_digit (n / 16)) (String (hex_digit (n mod 16)) EmptyString)).

Definition is_alnum (c : ascii) : bool :=
  let n := N_of_ascii c in
  ((48 <=? n) && (n <=? 57) || (65 <=? n) && (n <=? 90) || (97 <=? n) && (n <=? 122))%N.

(** The bytes that the [application/x-www-form-urlencoded] serialiser leaves
    as they are: ASCII letters and digits, and [* - . _]. *)
Definition form_unreserved (c : ascii) : bool :=
  is_alnum c || Ascii.eqb c "*" || Ascii.eqb c "-" || Ascii.eqb c "." || Ascii.eqb c "_".

Definition form_encode_byte (c : ascii) : string :=
  if Ascii.eqb c " " then "+"
  else if form_unreserved c then String c EmptyString
  else percent_encode_byte c.

Fixpoint form_urlencode (s : string) : string :=
  match s with
  | EmptyString => EmptyString
  | String c rest => form_encode_byte c +:+ form_urlencode rest
  end.

(** [search_params.toString()]. *)
Definition URLSearchParams_toString (ps : URLSearchParams) : string :=
  join "&" (List.map (fun p => form_urlencode (fst p) +:+ "=" +:+ form_urlencode (snd p)) ps).

(** A parsed URL: everything up to the path, serialised, and the query. *)
Record URL : Type := mkURL {
  url_base : string;
  url_query : option string
}.

(** [new URL(base)] for the two endpoint constants, which are absolute URLs
    without query or fragment and serialise as written. *)
Definition new_URL (base : string) : URL := mkURL base None.

Definition is_tab_or_newline (c : ascii) : bool :=
  Ascii.eqb c "009" || Ascii.eqb c "010" || Ascii.eqb c "013".

(** The special-query percent-encode set of the URL standard. *)
Definition in_special_query_set (c : ascii) : bool :=
  let n := N_of_ascii c in
  ((n <=? 31) || (126 <? n))%N
  || Ascii.eqb c " " || Ascii.eqb c "034" || Ascii.eqb c "#"
  || Ascii.eqb c "<" || Ascii.eqb c ">" || Ascii.eqb c "'".

(** The URL parser run in its query state over [s]. *)
Fixpoint query_state_encode (s : string) : string :=
  match s with
  | EmptyString => EmptyString
  | String c rest =>
      if is_tab_or_newline c then query_state_encode rest
      else if in_special_query_set c then percent_encode_byte c +:+ query_state_encode rest
      else String c (query_state_encode rest)
  end.

(** The setter [url.search = s]. *)
Definition URL_set_search (s : string) (u : URL) : URL :=
  match s with
  | EmptyString => mkURL (url_base u) None
  | String c rest =>
      let input := if Ascii.eqb c "?" then rest else s in
      mkURL (url_base u) (Some (query_state_encode input))
  end.

(** [url.toString()]. *)
Definition URL_toString (u : URL) : string :=
  match url_query u with
  | None => url_base u
  | Some q => url_base u +:+ "?" +:+ q
  end.

(** Parsing of an [application/x-www-form-urlencoded] query string, as the
    receiving end reads the parameters back. *)
Definition hex_value (c : ascii) : option N :=
  let n := N_of_ascii c in
  if ((48 <=? n) && (n <=? 57))%N then Some (n - 48)%N
  else if ((65 <=? n) && (n <=? 70))%N then Some (n - 55)%N
  else if ((97 <=? n) && (n <=? 102))%N then Some (n - 87)%N
  else None.

Fixpoint form_urldecode (s : string) : string :=
  match s with
  | EmptyString => EmptyString
  | String c rest =>
      if Ascii.eqb c "+" then String " " (form_urldecode rest)
      else if Ascii.eqb c "%" then
        match rest with
        | String h (String l rest') =>
            match hex_value h, hex_value l with
            | Some a, Some b => String (ascii_of_N (16 * a + b)) (form_urldecode rest')
            | _, _ => String c (form_urldecode rest)
            end
        | _ => String c (form_urldecode rest)
        end
      else String c (form_urldecode rest)
  end.

(** [split_on sep s]: the pieces of [s] between occurrences of [sep]. *)
Fixpoint split_on (sep : ascii) (s : string) : list string :=
  match s with
  | EmptyString => [EmptyString]
  | String c rest =>
      if Ascii.eqb c sep then EmptyString :: split_on sep rest
      else match split_on sep rest with
           | [] => [String c EmptyString]
           | p :: ps => String c p :: ps
           end
  end.

(** [split_first sep s]: [s] cut at the first [sep], or [(s, "")] when there
    is none. *)
Fixpoint split_first (sep : ascii) (s : string) : string * string :=
  match s with
  | EmptyString => (EmptyString, EmptyString)
  | String c rest =>
      if Ascii.eqb c sep then (EmptyString, rest)
      else let p := split_first sep rest in (String c (fst p), snd p)
  end.

Definition parse_search (s : string) : URLSearchParams :=
  List.map (fun piece => let p := split_first "=" piece in
                         (form_urldecode (fst p), form_urldecode (snd p)))
           (List.filter (fun piece => negb (String.eqb piece EmptyString)) (split_on "&" s)).

(** ** [Date] and [d3.timeDay]

    A time value is a number of milliseconds since the epoch, or [NaN]
    ([None]) for an invalid date.  The calendar functions are those of the
    language standard; the civil calendar is computed from the day number by
    the usual era decomposition (400-year cycles of 146097 days, years
    starting in March). *)

Definition msPerDay : Z := 86400000.
Definition msPerHour : Z := 3600000.
Definition msPerMinute : Z := 60000.
Definition msPerSecond : Z := 1000.

(** Largest magnitude of a valid time value. *)
Definition maxTime : Z := 8640000000000000.

Definition Day (t : Z) : Z := t / msPerDay.
Definition TimeWithinDay (t : Z) : Z := t mod msPerDay.

(** Year, month (1-12) and day of the month (1-31) of day number [z]. *)
Definition civil_from_days (z : Z) : Z * Z * Z :=
  let z := z + 719468 in
  let era := z / 146097 in
  let doe := z - era * 146097 in
  let yoe := (doe - doe / 1460 + doe / 36524 - doe / 146096) / 365 in
  let doy := doe - (365 * yoe + yoe / 4 - yoe / 100) in
  let mp := (5 * doy + 2) / 153 in
  let d := doy - (153 * mp + 2) / 5 + 1 in
  let m := if mp <? 10 then mp + 3 else mp - 9 in
  (yoe + era * 400 + (if m <=? 2 then 1 else 0), m, d).

(** Day number of the civil date [y]-[m]-[d] ([m] in 1-12); linear in [d],
    so that a day of the month outside the month carries over. *)
Definition days_from_civil (y m d : Z) : Z :=
  let y := y - (if m <=? 2 then 1 else 0) in
  let era := y / 400 in
  let yoe := y - era * 400 in
  let doy := (153 * (if 2 <? m then m - 3 else m + 9) + 2) / 5 + d - 1 in
  let doe := yoe * 365 + yoe / 4 - yoe / 100 + doy in
  era * 146097 + doe - 719468.

Definition YearFromTime (t : Z) : Z := fst (fst (civil_from_days (Day t))).
(** Months are numbered from 0, as in the language. *)
Definition MonthFromTime (t : Z) : Z := snd (fst (civil_from_days (Day t))) - 1.
Definition DateFromTime (t : Z) : Z := snd (civil_from_days (Day t)).
Definition HourFromTime (t : Z) : Z := (t / msPerHour) mod 24.
Definition MinFromTime (t : Z) : Z := (t / msPerMinute) mod 60.
Definition SecFromTime (t : Z) : Z := (t / msPerSecond) mod 60.
Definition msFromTime (t : Z) : Z := t mod msPerSecond.

Definition MakeDay (year month date : Z) : Z :=
  let ym := year + month / 12 in
  let mn := month mod 12 in
  days_from_civil ym (mn + 1) 1 + date - 1.

Definition MakeDate (day time : Z) : Z := day * msPerDay + time.

Definition TimeClip (t : Z) : option Z :=
  if maxTime <? Z.abs t then None else Some t.

(** The time zone of the host: [LocalTZA t true] is the offset of local time
    from UTC at the UTC instant [t], and [LocalTZA t false] the offset when
    [t] is read as a local time. *)
Definition TimeZone : Type := Z -> bool -> Z.

Definition LocalTime (tz : TimeZone) (t : Z) : Z := t + tz t true.
Definition UTC (tz : TimeZone) (t : Z) : Z := t - tz t false.

(** [date.getDate()]. *)
Definition Date_getDate (tz : TimeZone) (tv : option Z) : option Z :=
  match tv with
  | None => None
  | Some t => Some (DateFromTime (LocalTime tz t))
  end.

(** [date.setDate(dt)]: the new time value of [date]. *)
Definition Date_setDate (tz : TimeZone) (tv : option Z) (dt : option Z) : option Z :=
  match tv, dt with
  | Some t0, Some dt =>
      let t := LocalTime tz t0 in
      let newDate := MakeDate (MakeDay (YearFromTime t) (MonthFromTime t) dt) (TimeWithinDay t) in
      TimeClip (UTC tz newDate)
  | _, _ => None
  end.

(** Addition and negation of numbers, [NaN] being absorbing. *)
Definition num_add (a b : option Z) : option Z :=
  match a, b with
  | Some x, Some y => Some (x + y)
  | _, _ => None
  end.

Definition num_neg (a : option Z) : option Z := option_map Z.opp a.

(** [d3.timeDay.offset(date, step)]: a copy of [date] moved by [step] local
    calendar days, [d.setDate(d.getDate() + step)].  [step] is an integer or
    [NaN] here, which [Math.floor] leaves as it is. *)
Definition timeDay_offset (tz : TimeZone) (date : option Z) (step : option Z) : option Z :=
  Date_setDate tz date (num_add (Date_getDate tz date) step).

Definition format_year (y : Z) : string :=
  if (0 <=? y) && (y <=? 9999) then pad_digits 4 y
  else (if y <? 0 then "-" else "+") +:+ pad_digits 6 (Z.abs y).

(** [date.toISOString()]: throws on an invalid date. *)
Definition toISOString (tv : option Z) : Completion string :=
  match tv with
  | None => Throw (RangeError "Invalid time value")
  | Some t =>
      Return (format_year (YearFromTime t) +:+ "-" +:+ pad_digits 2 (MonthFromTime t + 1)
              +:+ "-" +:+ pad_digits 2 (DateFromTime t)
              +:+ "T" +:+ pad_digits 2 (HourFromTime t)
              +:+ ":" +:+ pad_digits 2 (MinFromTime t)
              +:+ ":" +:+ pad_digits 2 (SecFromTime t)
              +:+ "." +:+ pad_digits 3 (msFromTime t) +:+ "Z")
  end.

(** A zone at a fixed offset from UTC (no daylight saving). *)
Definition fixed_zone (offset : Z) : TimeZone := fun _ _ => offset.

(** ** The host: clock, time zone, network, console *)

(** What [fetch] hands to [d3.json]: the status line, and what
    [response.json()] gives (a [SyntaxError] for an undecodable body). *)
Record Response : Type := mkResponse {
  status : Z;
  statusText : string;
  json : Completion JSValue
}.

Inductive FetchOutcome : Type :=
| NetworkFailure (e : JSError)
| Responded (r : Response).

Record Host : Type := mkHost {
  (** the successive readings of [new Date()] *)
  clock : nat -> Z;
  zone : TimeZone;
  (** the outcome of the [n]-th request issued, given its URL *)
  network : nat -> string -> FetchOutcome
}.

Inductive ConsoleArg : Type :=
| ArgString (s : string)
| ArgQuery (q : QueryObject)
| ArgBool (b : bool)
| ArgError (e : JSError)
| ArgEntries (data : list AggregatedEntry).

Record World : Type := mkWorld {
  clock_reads : nat;
  requests : list string;
  console : list (list ConsoleArg)
}.

Definition initial_world : World := mkWorld 0 [] [].

(** Computations that read the clock, issue requests, write to the console,
    and may throw.  What was done before a throw stays done. *)
Definition M (A : Type) : Type := World -> Completion A * World.

#[global] Instance M_ret : MRet M := fun A a w => (Return a, w).

#[global] Instance M_bind : MBind M := fun A B k m w =>
  match m w with
  | (Return a, w') => k a w'
  | (Throw e, w') => (Throw e, w')
  end.

Definition lift {A : Type} (c : Completion A) : M A := fun w => (c, w).

(** Runs [m] and hands back how it completed, as the promise of an [async]
    function records it. *)
Definition attempt {A : Type} (m : M A) : M (Completion A) := fun w =>
  let r := m w in (Return (fst r), snd r).

Definition console_log (args : list ConsoleArg) : M unit := fun w =>
  (Return tt, mkWorld (clock_reads w) (requests w) (console w ++ [args])).

(** The bytes of the bar-chart sign that [log] puts first. *)
Definition chart : string :=
  String "240" (String "159" (String "147" (String "138" EmptyString))).

(** [function log(...args)] (lines 143-145). *)
Definition log (args : list ConsoleArg) : M unit :=
  console_log (ArgString chart :: args).

(** ** [fetch_all_prometheus_data] and [Promise.all] (lines 129-141) *)

(** The state of [Promise.all] over [n] promises: the values collected so
    far, the number of promises still awaited, and how the combined promise
    has settled, if it has. *)
Record AllState (A : Type) : Type := mkAll {
  slots : list (option A);
  remaining : nat;
  outcome : option (Completion (list A))
}.
Arguments mkAll {A} slots remaining outcome.
Arguments slots {A} a.
Arguments remaining {A} a.
Arguments outcome {A} a.

Definition all_values {A : Type} (vs : list (option A)) : list A := omap id vs.

Definition all_init {A : Type} (n : nat) : AllState A :=
  mkAll (replicate n None) n (match n with O => Some (Return []) | S _ => None end).

(** The [i]-th promise fulfils with [v]: the value goes to index [i]
    whatever the order of arrival; the last arrival resolves the whole.  A
    second call for the same index is ignored. *)
Definition all_resolve {A : Type} (i : nat) (v : A) (st : AllState A) : AllState A :=
  match slots st !! i with
  | Some None =>
      let vs := <[i := Some v]> (slots st) in
      let r := Nat.pred (remaining st) in
      mkAll vs r (match outcome st, r with
                  | None, O => Some (Return (all_values vs))
                  | o, _ => o
                  end)
  | _ => st
  end.

(** A promise rejects: the whole rejects with that reason, unless settled
    already. *)
Definition all_reject {A : Type} (e : JSError) (st : AllState A) : AllState A :=
  mkAll (slots st) (remaining st)
        (match outcome st with None => Some (Throw e) | o => o end).

(** [data_loaded_signal] for a given value of [data_signal] (lines 6-10). *)
Definition data_loaded_signal (data_signal : list AggregatedEntry) : bool :=
  (0 <? length data_signal)%nat.

(** The reading of a decoded value at the declared type [PrometheusResult]. *)
Definition as_label (f : string * JSValue) : option (string * string) :=
  match snd f with
  | JStr s => Some (fst f, s)
  | _ => None
  end.

Definition as_PrometheusResult (v : JSValue) : option PrometheusResult :=
  match get v "metric", get v "value" with
  | Return (JObj labels), Return (JArr [JNum t; JStr s]) =>
      ls ← mapM as_label labels; Some (mkResult ls (t, s))
  | _, _ => None
  end.

Definition as_results (v : JSValue) : option (list PrometheusResult) :=
  match v with
  | JArr items => mapM as_PrometheusResult items
  | _ => None
  end.

Section Renderer.

Variable host : Host.

(** [new Date()]. *)
Definition new_Date : M (option Z) := fun w =>
  (Return (Some (clock host (clock_reads w))),
   mkWorld (S (clock_reads w)) (requests w) (console w)).

(** [fetch(url)]: the request leaves; its number identifies it. *)
Definition issue (url : string) : M nat := fun w =>
  (Return (length (requests w)),
   mkWorld (clock_reads w) (requests w ++ [url]) (console w)).

(** ** [fetch_prometheus_data] (lines 92-127) *)

(** [query_object.range_unit === "day"]. *)
Definition is_day (q : QueryObject) : bool :=
  match range_unit q with
  | Some u => String.eqb u "day"
  | None => false
  end.

(** The string that [search_params.set] stores for [range_step]. *)
Definition step_string (q : QueryObject) : string :=
  match range_step q with
  | Some s => s
  | None => "undefined"
  end.

(** Lines 101-112: the search parameters. *)
Definition build_search_params (q : QueryObject) (is_range_query : bool)
  : M URLSearchParams :=
  let search_params : URLSearchParams := [("query", query q)] in
  if is_range_query then
    end_ ← new_Date;
    if is_day q then
      let start := timeDay_offset (zone host) end_ (num_neg (range_offset q)) in
      s ← lift (toISOString start);
      let search_params := URLSearchParams_set "start" s search_params in
      e ← lift (toISOString end_);
      let search_params := URLSearchParams_set "end" e search_params in
      mret (URLSearchParams_set "step" (step_string q) search_params)
    else mret search_params
  else mret search_params.

Definition base_url (is_range_query : bool) : string :=
  if is_range_query
  then "http://prometheus.flatironinstitute.org/api/v1/query_range"
  else "http://prometheus.flatironinstitute.org/api/v1/query".

(** Lines 96-114: the URL of the request. *)
Definition build_url (q : QueryObject) (is_range_query : bool) : M URL :=
  log [ArgString "Fetching data"; ArgQuery q; ArgBool is_range_query];;
  let url := new_URL (base_url is_range_query) in
  search_params ← build_search_params q is_range_query;
  let url := URL_set_search (URLSearchParams_toString search_params) url in
  log [ArgString "URL"; ArgString (URL_toString url)];;
  mret url.

(** Lines 96-116, up to the point where the function waits for the
    network: the request is built and issued.  A throw here rejects the
    promise that the [async] function returns. *)
Definition fetch_prometheus_data_request (q : QueryObject) (is_range_query : bool)
  : M (nat * string) :=
  url ← build_url q is_range_query;
  n ← issue (URL_toString url);
  mret (n, URL_toString url).

(** [response.ok]. *)
Definition response_ok (r : Response) : bool :=
  (200 <=? status r) && (status r <=? 299).

(** [d3.json], given what [fetch] came to: a failure of the network rejects,
    a response that is not [ok] is an error with its status line, an empty
    response (204, 205) decodes to [undefined], anything else is parsed. *)
Definition d3_json (o : FetchOutcome) : Completion JSValue :=
  match o with
  | NetworkFailure e => Throw e
  | Responded r =>
      if negb (response_ok r)
      then Throw (Error (Number_toString (status r) +:+ " " +:+ statusText r))
      else if (status r =? 204) || (status r =? 205) then Return JUndefined
      else json r
  end.

Definition and_then {A B : Type} (c : Completion A) (k : A -> Completion B)
  : Completion B :=
  match c with
  | Throw e => Throw e
  | Return a => k a
  end.

(** Lines 117-124: the [.then] handler. *)
Definition on_body (body : JSValue) : Completion JSValue :=
  and_then (get body "status") (fun st =>
  if strict_eq_string st "success" then
    and_then (get body "data") (fun data => get data "result")
  else
    and_then (get body "error") (fun err =>
    and_then (ToString err) (fun text =>
    Throw (Error ("Prometheus error: " +:+ text))))).

(** Line 126: the [.catch] handler; it returns what [console.log]
    returns. *)
Definition on_error (err : JSError) : M JSValue :=
  e ← lift (Error_of (error_statusText err));
  console_log [ArgError e];;
  mret JUndefined.

(** Lines 115-126: what the function returns once the network has
    answered. *)
Definition fetch_prometheus_data_settle (o : FetchOutcome) : M JSValue :=
  match and_then (d3_json o) on_body with
  | Return results => mret results
  | Throw err => on_error err
  end.

(** The whole function, when nothing else runs in between. *)
Definition fetch_prometheus_data (q : QueryObject) (is_range_query : bool)
  : M JSValue :=
  r ← fetch_prometheus_data_request q is_range_query;
  fetch_prometheus_data_settle (network host (fst r) (snd r)).

(** ** The fan-out *)

(** One [async (query_object) => ...] callback of the two [map]s, stopped
    at its [await]: either its request is in flight, or the call has
    thrown already. *)
Record Task : Type := mkTask {
  task_query : QueryObject;
  task_request : Completion (nat * string)
}.

(** [list.map(async (query_object) => ...)]: the callbacks run one after
    the other, each up to its [await]; a throw stays inside the promise of
    its callback. *)
Fixpoint start_all (qs : list QueryObject) (is_range_query : bool) : M (list Task) :=
  match qs with
  | [] => mret []
  | q :: rest =>
      r ← attempt (fetch_prometheus_data_request q is_range_query);
      ts ← start_all rest is_range_query;
      mret (mkTask q r :: ts)
  end.

(** The promise number [i] settles: the callback resumes after its
    [await], builds its entry, and [Promise.all] records it. *)
Definition settle_task (tasks : list Task) (i : nat) (st : AllState AggregatedEntry)
  : M (AllState AggregatedEntry) :=
  match tasks !! i with
  | None => mret st
  | Some t =>
      match task_request t with
      | Throw e => mret (all_reject e st)
      | Return r =>
          match slots st !! i with
          | Some None =>
              data ← fetch_prometheus_data_settle (network host (fst r) (snd r));
              mret (all_resolve i (mkEntry (task_query t) data) st)
          | _ => mret st
          end
      end
  end.

Fixpoint settle_all (tasks : list Task) (schedule : list nat)
    (st : AllState AggregatedEntry) : M (AllState AggregatedEntry) :=
  match schedule with
  | [] => mret st
  | i :: rest => st' ← settle_task tasks i st; settle_all tasks rest st'
  end.

(** [fetch_all_prometheus_data] over a catalogue [qs], [rqs].  [schedule]
    lists the positions of the combined array in the order in which their
    promises settle.  The result is how the returned promise has settled:
    [None] while it is pending. *)
Definition fetch_all_with (qs rqs : list QueryObject) (schedule : list nat)
  : M (option (Completion (list AggregatedEntry))) :=
  non_range_data ← start_all qs false;
  range_data ← start_all rqs true;
  let tasks := (non_range_data ++ range_data)%list in
  st ← settle_all tasks schedule (all_init (length tasks));
  mret (outcome st).

Definition fetch_all_prometheus_data (schedule : list nat)
  : M (option (Completion (list AggregatedEntry))) :=
  fetch_all_with queries range_queries schedule.

(** ** [App] (lines 147-157): the effect run on mount *)

(** The value of [data_signal] after the effect: the fetched data once the
    promise has fulfilled, the initial [[]] otherwise. *)
Definition App_effect (schedule : list nat) : M (list AggregatedEntry) :=
  log [ArgString "App mounted"];;
  log [ArgString "Fetching data..."];;
  r ← fetch_all_prometheus_data schedule;
  match r with
  | Some (Return data) =>
      log [ArgString "Data fetched"; ArgEntries data];;
      mret data
  | _ => mret []
  end.

End Renderer.

(** Runs a computation from the initial state of the page. *)
Definition run {A : Type} (m : M A) : Completion A := fst (m initial_world).

(** ** Vocabulary of the statements *)

(** [P] holds of every byte of [s]. *)
Fixpoint string_forall (P : ascii -> bool) (s : string) : bool :=
  match s with
  | EmptyString => true
  | String c rest => P c && string_forall P rest
  end.

(** The bytes that [form_urlencode] can produce. *)
Definition wire_safe (c : ascii) : bool :=
  form_unreserved c || Ascii.eqb c "+" || Ascii.eqb c "%".

(** The bytes of a serialised parameter list. *)
Definition wire_char (c : ascii) : bool :=
  wire_safe c || Ascii.eqb c "=" || Ascii.eqb c "&".

(** One serialised name-value pair. *)
Definition pair_string (p : string * string) : string :=
  form_urlencode (fst p) +:+ "=" +:+ form_urlencode (snd p).

(** The value that [fetch_prometheus_data] resolves with for a network
    outcome [o]: the result of the [.then] handler, or [undefined] when
    anything was thrown on the way. *)
Definition decoded (o : FetchOutcome) : JSValue :=
  match and_then (d3_json o) on_body with
  | Return results => results
  | Throw _ => JUndefined
  end.

(** The entry that the callback of task [t] builds. *)
Definition entry_of_task (host : Host) (t : Task) : AggregatedEntry :=
  mkEntry (task_query t)
          (match task_request t with
           | Return r => decoded (network host (fst r) (snd r))
           | Throw _ => JUndefined
           end).

(** The clock shows a date of the common era that is not within two days of
    the last representable one. *)
Definition clock_valid (host : Host) : Prop :=
  forall n, 0 <= clock host n <= maxTime - 2 * msPerDay.

(** Local time is within a day of UTC. *)
Definition zone_bounded (host : Host) : Prop :=
  forall t b, Z.abs (zone host t b) <= msPerDay.

(** The window of a range definition in days reaches back to a representable
    date: an offset is given, it is not negative and it is below the span of
    representable time. *)
Definition window_supported (q : QueryObject) : Prop :=
  is_day q = true ->
  exists k, range_offset q = Some k /\ 0 <= k /\ k * msPerDay <= maxTime - 2 * msPerDay.

(** Every position of an array of [n] promises settles exactly once. *)
Definition settles_each_once (n : nat) (schedule : list nat) : Prop :=
  schedule ≡ₚ seq 0 n.

(** [m] run in [w] returns [a] and leaves [w']. *)
Definition returns {A : Type} (m : M A) (w : World) (a : A) (w' : World) : Prop :=
  m w = (Return a, w').

(** The construction of the request of [q] succeeds in every state, without
    issuing a request, and gives at least one parameter. *)
Definition builds (host : Host) (q : QueryObject) (is_range_query : bool) : Prop :=
  forall w, exists p ps w1,
    build_search_params host q is_range_query w = (Return (p :: ps), w1)
    /\ requests w1 = requests w.

(** The invariant of [Promise.all] while the promises listed in [pending]
    are still awaited: the others have left their entry at their index. *)
Definition all_inv (entries : list AggregatedEntry) (pending : list nat)
    (st : AllState AggregatedEntry) : Prop :=
  NoDup pending /\
  (forall i, i ∈ pending -> (i < length entries)%nat) /\
  length (slots st) = length entries /\
  (forall i e, entries !! i = Some e ->
     slots st !! i = Some (if bool_decide (i ∈ pending) then None else Some e)) /\
  remaining st = length pending /\
  outcome st = match pending with [] => Some (Return entries) | _ :: _ => None end.

(** The service answered, with whatever status line, and the body is an
    error envelope with message [msg]. *)
Definition is_service_error (o : FetchOutcome) (msg : string) : Prop :=
  exists r body,
    o = Responded r
    /\ json r = Return body
    /\ get body "status" = Return (JStr "error")
    /\ get body "error" = Return (JStr msg).

(** The service answered, and the body is a success envelope whose
    [data.result] is the array [series]. *)
Definition is_success (o : FetchOutcome) (series : list JSValue) : Prop :=
  exists r body data,
    o = Responded r /\ response_ok r = true /\ status r <> 204 /\ status r <> 205
    /\ json r = Return body
    /\ get body "status" = Return (JStr "success")
    /\ get body "data" = Return data
    /\ get data "result" = Return (JArr series).

(** ** Sample inputs *)

Definition error_envelope (msg : string) : JSValue :=
  JObj [("status", JStr "error"); ("error", JStr msg)].

Definition sample_series : JSValue :=
  JObj [("metric", JObj [("cluster", JStr "x")]);
        ("value", JArr [JNum 1700000000; JStr "4"])].

Definition success_envelope : JSValue :=
  JObj [("status", JStr "success"); ("data", JObj [("result", JArr [sample_series])])].

Definition answer (body : JSValue) : FetchOutcome :=
  Responded (mkResponse 200 "OK" (Return body)).

(** 14 November 2023, 22:13:20.123 UTC, on a clock five hours behind UTC. *)
Definition sample_clock : nat -> Z := fun _ => 1700000000123.
Definition sample_zone : TimeZone := fixed_zone (-18000000).

(** Every request is answered with the sample success envelope. *)
Definition healthy_host : Host :=
  mkHost sample_clock sample_zone (fun _ _ => answer success_envelope).

(** Request number [j] is answered with an error envelope carrying [msg],
    every other one with the sample success envelope. *)
Definition host_failing_at (j : nat) (msg : string) : Host :=
  mkHost sample_clock sample_zone
         (fun n _ => if Nat.eqb n j then answer (error_envelope msg)
                     else answer success_envelope).

(** Every request is answered with an error envelope carrying [msg]. *)
Definition erring_host (msg : string) : Host :=
  mkHost sample_clock sample_zone (fun _ _ => answer (error_envelope msg)).

(** Request number [j] is refused with status 400 and an error envelope
    carrying [msg], every other one is answered with the sample success
    envelope. *)
Definition host_refusing_at (j : nat) (msg : string) : Host :=
  mkHost sample_clock sample_zone
         (fun n _ => if Nat.eqb n j
                     then Responded (mkResponse 400 "Bad Request"
                                       (Return (error_envelope msg)))
                     else answer success_envelope).

(** Every request is refused with status 400 and an error envelope carrying
    [msg], as the service does for a query it cannot parse. *)
Definition refusing_host (msg : string) : Host :=
  mkHost sample_clock sample_zone
         (fun _ _ => Responded (mkResponse 400 "Bad Request" (Return (error_envelope msg)))).

(** No request reaches the service. *)
Definition unreachable_host : Host :=
  mkHost sample_clock sample_zone
         (fun _ _ => NetworkFailure (TypeError "Failed to fetch")).

(** A range definition in weeks, which the declared type of [range_unit]
    does not admit, and one without range parameters. *)
Definition weekly_query : QueryObject :=
  mkQuery "Jobs over a week" "weekly_jobs" "up" (Some 1) (Some "week") (Some "15m").

Definition plain_query : QueryObject := instant_query "Up" "up" "up".

(** A definition over the last seven days. *)
Definition seven_day_query : QueryObject :=
  mkQuery "Up over the last 7 days" "up_week" "up" (Some 7) (Some "day") (Some "90m").

(** A definition in days that gives no offset. *)
Definition offsetless_query : QueryObject :=
  mkQuery "Jobs" "jobs" "up" None (Some "day") (Some "15m").

(** A zone that moves from four to five hours behind UTC on 5 November 2023
    at 06:00 UTC, as clocks in New York did. *)
Definition autumn_zone : TimeZone := fun t is_utc =>
  let change := 1699164000000 in
  if is_utc
  then (if t <? change then -14400000 else -18000000)
  else (if t <? change - 14400000 then -14400000 else -18000000).

(** ** Vocabulary of the further statements *)

(** The URL of the request of [q] in instant mode. *)
Definition instant_request_url (q : QueryObject) : string :=
  "http://prometheus.flatironinstitute.org/api/v1/query"
  +:+ "?query=" +:+ form_urlencode (query q).

(** The number of positions of [Promise.all] that hold no value yet. *)
Fixpoint unfilled {A : Type} (vs : list (option A)) : nat :=
  match vs with
  | [] => O
  | None :: rest => S (unfilled rest)
  | Some _ :: rest => unfilled rest
  end.

(** Every position of an array of [n] promises occurs in [schedule]. *)
Definition covers (n : nat) (schedule : list nat) : Prop :=
  forall i, (i < n)%nat -> i ∈ schedule.

(** The outcomes of a request from which no data can be taken. *)
Inductive Unusable : FetchOutcome -> Prop :=
| unusable_network (e : JSError) : Unusable (NetworkFailure e)
| unusable_status (r : Response) :
    response_ok r = false -> Unusable (Responded r)
| unusable_empty (r : Response) :
    status r = 204 \/ status r = 205 -> Unusable (Responded r)
| unusable_body (r : Response) (e : JSError) :
    json r = Throw e -> Unusable (Responded r)
| unusable_envelope (r : Response) (body : JSValue) :
    json r = Return body -> get body "status" <> Return (JStr "success") ->
    Unusable (Responded r).

Definition stepless_query : QueryObject :=
  mkQuery "Jobs" "jobs" "up" (Some 1) (Some "day") None.

(** The URL of a request of [q]: the endpoint of the mode, then [query]
    with the encoded expression, then in range mode whatever follows. *)
Definition request_url_shape (is_range_query : bool) (q : QueryObject) (u : string)
  : Prop :=
  exists rest,
    u = base_url is_range_query +:+ "?query=" +:+ form_urlencode (query q) +:+ rest
    /\ (is_range_query = false -> rest = EmptyString).

(** What holds of [Promise.all] as long as the promise at position [j] has
    not fulfilled: its position is empty, the counter counts the empty
    positions, and the whole has not fulfilled. *)
Definition reject_inv (j : nat) (st : AllState AggregatedEntry) : Prop :=
  slots st !! j = Some None
  /\ remaining st = unfilled (slots st)
  /\ (forall es, outcome st <> Some (Return es)).

(** The invariant of [Promise.all] for any order of arrival: the positions
    that have settled hold their entry, the others hold nothing, the counter
    counts the empty positions, and the whole has fulfilled exactly when the
    counter has reached zero. *)
Definition all_inv_any (entries : list AggregatedEntry) (settled : list nat)
    (st : AllState AggregatedEntry) : Prop :=
  length (slots st) = length entries /\
  (forall i e, entries !! i = Some e ->
     (i ∈ settled -> slots st !! i = Some (Some e))
     /\ (i ∉ settled -> slots st !! i = Some None)) /\
  remaining st = unfilled (slots st) /\
  outcome st = match remaining st with
               | O => Some (Return entries)
               | S _ => None
               end.


(** * Properties *)

Local Arguments String.append !s1 s2 : simpl nomatch.

(** C9: the [name] fields of the six instant-mode and the three range-mode
    definitions of the catalogue are pairwise distinct. *)
Theorem catalogue_names_distinct :
  NoDup (map name (queries ++ range_queries)).
Proof.
  apply (bool_decide_unpack _). vm_compute. reflexivity.
Qed.

(** ** The calendar *)

Lemma days_from_civil_linear y m d :
  days_from_civil y m d = days_from_civil y m 1 + d - 1.
Proof. unfold days_from_civil. lia. Qed.

Lemma yoe_bounds doe :
  0 <= doe < 146097 ->
  let yoe := (doe - doe / 1460 + doe / 36524 - doe / 146096) / 365 in
  0 <= yoe <= 399 /\ 0 <= doe - (365 * yoe + yoe / 4 - yoe / 100) <= 365.
Proof.
  intros H yoe. subst yoe.
  Z.to_euclidean_division_equations; lia.
Qed.

(** The day number of the civil date of a day is that day. *)
Lemma days_from_civil_of_days z :
  days_from_civil (fst (fst (civil_from_days z))) (snd (fst (civil_from_days z)))
                  (snd (civil_from_days z)) = z.
Proof.
  unfold civil_from_days.
  set (z' := z + 719468).
  set (era := z' / 146097).
  set (doe := z' - era * 146097).
  assert (Hdoe : 0 <= doe < 146097).
  { subst doe era. Z.to_euclidean_division_equations; lia. }
  destruct (yoe_bounds doe Hdoe) as [Hyoe Hdoy].
  set (yoe := (doe - doe / 1460 + doe / 36524 - doe / 146096) / 365) in *.
  set (doy := doe - (365 * yoe + yoe / 4 - yoe / 100)) in *.
  set (mp := (5 * doy + 2) / 153).
  assert (Hmp : 0 <= mp <= 11).
  { subst mp. Z.to_euclidean_division_equations; lia. }
  cbn [fst snd]. unfold days_from_civil.
  destruct (Z.ltb_spec mp 10) as [Hlt | Hge].
  - destruct (Z.leb_spec (mp + 3) 2); [lia |].
    destruct (Z.ltb_spec 2 (mp + 3)); [| lia].
    replace (yoe + era * 400 + 0 - 0) with (yoe + era * 400) by lia.
    replace ((yoe + era * 400) / 400) with era by (Z.to_euclidean_division_equations; lia).
    replace (mp + 3 - 3) with mp by lia.
    replace (yoe + era * 400 - era * 400) with yoe by lia.
    subst doy doe z'. lia.
  - destruct (Z.leb_spec (mp - 9) 2); [| lia].
    destruct (Z.ltb_spec 2 (mp - 9)); [lia |].
    replace (yoe + era * 400 + 1 - 1) with (yoe + era * 400) by lia.
    replace ((yoe + era * 400) / 400) with era by (Z.to_euclidean_division_equations; lia).
    replace (mp - 9 + 9) with mp by lia.
    replace (yoe + era * 400 - era * 400) with yoe by lia.
    subst doy doe z'. lia.
Qed.

(** Setting the day of the month to the current one plus [s] moves the day
    number by [s], across the ends of months and years. *)
Lemma MakeDay_shift t s :
  MakeDay (YearFromTime t) (MonthFromTime t) (DateFromTime t + s) = Day t + s.
Proof.
  unfold MakeDay, YearFromTime, MonthFromTime, DateFromTime.
  pose proof (days_from_civil_of_days (Day t)) as Hrt.
  rewrite days_from_civil_linear in Hrt.
  assert (Hm : 1 <= snd (fst (civil_from_days (Day t))) <= 12).
  { unfold civil_from_days. cbn [fst snd].
    set (doe := _ - _ * 146097).
    assert (Hdoe : 0 <= doe < 146097) by (subst doe; Z.to_euclidean_division_equations; lia).
    destruct (yoe_bounds doe Hdoe) as [_ Hdoy].
    set (mp := (5 * _ + 2) / 153).
    assert (0 <= mp <= 11) by (subst mp; Z.to_euclidean_division_equations; lia).
    destruct (Z.ltb_spec mp 10); lia. }
  set (m := snd (fst (civil_from_days (Day t)))) in *.
  replace ((m - 1) / 12) with 0 by (Z.to_euclidean_division_equations; lia).
  replace ((m - 1) mod 12 + 1) with m by (Z.to_euclidean_division_equations; lia).
  rewrite Z.add_0_r. lia.
Qed.

(** [d3.timeDay.offset] moves the local time by [s] times 24 hours and
    reads the result back in the zone. *)
Lemma setDate_shift tz t s :
  timeDay_offset tz (Some t) (Some s) = TimeClip (UTC tz (LocalTime tz t + s * msPerDay)).
Proof.
  unfold timeDay_offset, Date_getDate, num_add, Date_setDate.
  rewrite MakeDay_shift. f_equal. f_equal.
  unfold MakeDate, Day, TimeWithinDay, msPerDay.
  Z.to_euclidean_division_equations; lia.
Qed.

(** ** The query string on the wire *)

Ltac by_bytes c := destruct c as [[] [] [] [] [] [] [] []]; try reflexivity; try discriminate.

Lemma string_forall_app P s1 s2 :
  string_forall P (s1 +:+ s2) = string_forall P s1 && string_forall P s2.
Proof.
  induction s1 as [| c s1 IH]; cbn; [reflexivity |].
  rewrite IH. apply andb_assoc.
Qed.

Lemma string_forall_impl (P Q : ascii -> bool) s :
  (forall c, P c = true -> Q c = true) ->
  string_forall P s = true -> string_forall Q s = true.
Proof.
  intros HPQ. induction s as [| c s IH]; cbn; [reflexivity |].
  intros [Hc Hs]%andb_true_iff. rewrite (HPQ c Hc), (IH Hs). reflexivity.
Qed.

Lemma form_encode_byte_safe c : string_forall wire_safe (form_encode_byte c) = true.
Proof. by_bytes c. Qed.

Lemma form_urlencode_safe s : string_forall wire_safe (form_urlencode s) = true.
Proof.
  induction s as [| c s IH]; cbn; [reflexivity |].
  rewrite string_forall_app, form_encode_byte_safe, IH. reflexivity.
Qed.

Lemma form_urldecode_byte c s :
  form_urldecode (form_encode_byte c +:+ s) = String c (form_urldecode s).
Proof. by_bytes c. Qed.

(** Decoding undoes the encoding of a name or value. *)
Lemma form_urldecode_encode s : form_urldecode (form_urlencode s) = s.
Proof.
  induction s as [| c s IH]; cbn; [reflexivity |].
  rewrite form_urldecode_byte, IH. reflexivity.
Qed.

Lemma split_on_whole sep s :
  string_forall (fun c => negb (Ascii.eqb c sep)) s = true ->
  split_on sep s = [s].
Proof.
  induction s as [| c s IH]; cbn; [reflexivity |].
  intros [Hc Hs]%andb_true_iff. apply negb_true_iff in Hc. rewrite Hc, (IH Hs).
  reflexivity.
Qed.

Lemma split_on_app sep s rest :
  string_forall (fun c => negb (Ascii.eqb c sep)) s = true ->
  split_on sep (s +:+ String sep rest) = s :: split_on sep rest.
Proof.
  induction s as [| c s IH]; cbn.
  - intros _. rewrite Ascii.eqb_refl. reflexivity.
  - intros [Hc Hs]%andb_true_iff. apply negb_true_iff in Hc. rewrite Hc, (IH Hs).
    reflexivity.
Qed.

Lemma split_first_app sep s rest :
  string_forall (fun c => negb (Ascii.eqb c sep)) s = true ->
  split_first sep (s +:+ String sep rest) = (s, rest).
Proof.
  induction s as [| c s IH]; cbn.
  - intros _. rewrite Ascii.eqb_refl. reflexivity.
  - intros [Hc Hs]%andb_true_iff. apply negb_true_iff in Hc. rewrite Hc, (IH Hs).
    reflexivity.
Qed.

Lemma query_state_encode_id s :
  string_forall wire_char s = true -> query_state_encode s = s.
Proof.
  induction s as [| c s IH]; cbn; [reflexivity |].
  intros [Hc Hs]%andb_true_iff. rewrite (IH Hs).
  revert Hc. by_bytes c.
Qed.

Lemma wire_safe_not_amp c : wire_safe c = true -> negb (Ascii.eqb c "&") = true.
Proof. by_bytes c. Qed.

Lemma wire_safe_not_eq c : wire_safe c = true -> negb (Ascii.eqb c "=") = true.
Proof. by_bytes c. Qed.

Lemma wire_safe_char c : wire_safe c = true -> wire_char c = true.
Proof. unfold wire_char. intros ->. reflexivity. Qed.

Lemma pair_string_no_amp p :
  string_forall (fun c => negb (Ascii.eqb c "&")) (pair_string p) = true.
Proof.
  unfold pair_string. rewrite !string_forall_app.
  rewrite !(string_forall_impl wire_safe _ _ wire_safe_not_amp (form_urlencode_safe _)).
  reflexivity.
Qed.

Lemma pair_string_wire p : string_forall wire_char (pair_string p) = true.
Proof.
  unfold pair_string. rewrite !string_forall_app.
  rewrite !(string_forall_impl wire_safe _ _ wire_safe_char (form_urlencode_safe _)).
  reflexivity.
Qed.

Lemma pair_string_nonempty p : String.eqb (pair_string p) EmptyString = false.
Proof.
  unfold pair_string. destruct (form_urlencode (fst p)); reflexivity.
Qed.

Lemma pair_string_split p :
  split_first "=" (pair_string p) = (form_urlencode (fst p), form_urlencode (snd p)).
Proof.
  unfold pair_string. apply (split_first_app "=").
  apply (string_forall_impl wire_safe _ _ wire_safe_not_eq (form_urlencode_safe _)).
Qed.

Lemma toString_cons p ps :
  URLSearchParams_toString (p :: ps) =
  match ps with
  | [] => pair_string p
  | _ :: _ => pair_string p +:+ String "&" (URLSearchParams_toString ps)
  end.
Proof. destruct ps; reflexivity. Qed.

Lemma toString_wire ps : string_forall wire_char (URLSearchParams_toString ps) = true.
Proof.
  induction ps as [| p ps IH]; [reflexivity |].
  rewrite toString_cons. destruct ps as [| p' ps].
  - apply pair_string_wire.
  - rewrite string_forall_app, pair_string_wire. cbn [string_forall andb].
    rewrite IH. reflexivity.
Qed.

Lemma parse_pair p rest :
  parse_search (pair_string p +:+ String "&" rest) = p :: parse_search rest.
Proof.
  unfold parse_search. rewrite split_on_app by apply pair_string_no_amp.
  cbn [List.filter]. rewrite pair_string_nonempty. cbn [negb List.map].
  rewrite pair_string_split. cbn [fst snd]. rewrite !form_urldecode_encode.
  destruct p; reflexivity.
Qed.

(** The receiving end reads back the parameters that were serialised, in
    their order. *)
Lemma parse_search_toString ps : parse_search (URLSearchParams_toString ps) = ps.
Proof.
  induction ps as [| p ps IH]; [reflexivity |].
  rewrite toString_cons. destruct ps as [| p' ps].
  - unfold parse_search. rewrite split_on_whole by apply pair_string_no_amp.
    cbn [List.filter]. rewrite pair_string_nonempty. cbn [negb List.map].
    rewrite pair_string_split. cbn [fst snd]. rewrite !form_urldecode_encode.
    destruct p; reflexivity.
  - rewrite parse_pair, IH. reflexivity.
Qed.

(** The setter of [url.search] stores a serialised parameter list as it
    is: no byte of it is in the percent-encode set of the query state. *)
Lemma set_search_toString b p ps :
  url_query (URL_set_search (URLSearchParams_toString (p :: ps)) (new_URL b))
  = Some (URLSearchParams_toString (p :: ps)).
Proof.
  pose proof (toString_wire (p :: ps)) as Hw.
  assert (Hne : exists c s, URLSearchParams_toString (p :: ps) = String c s /\ Ascii.eqb c "?" = false).
  { rewrite toString_cons.
    assert (exists c s, pair_string p = String c s /\ Ascii.eqb c "?" = false) as (c & s & Hp & Hc).
    { pose proof (pair_string_wire p) as Hpw.
      destruct (pair_string p) as [| c s] eqn:E.
      - pose proof (pair_string_nonempty p) as Hn. rewrite E in Hn. discriminate.
      - exists c, s. split; [reflexivity |].
        cbn in Hpw. apply andb_true_iff in Hpw as [Hc _]. revert Hc. clear. by_bytes c. }
    rewrite Hp. destruct ps; cbn; eauto. }
  destruct Hne as (c & s & E & Hc).
  unfold URL_set_search. rewrite E in *. rewrite Hc. cbn [url_query].
  rewrite query_state_encode_id by exact Hw. reflexivity.
Qed.

(** ** Single requests *)

(** Whatever the network did, the chain of handlers returns: it never
    throws, and it issues no request and does not read the clock. *)
Lemma settle_returns o w :
  exists w', returns (fetch_prometheus_data_settle o) w (decoded o) w'
             /\ requests w' = requests w /\ clock_reads w' = clock_reads w.
Proof.
  unfold fetch_prometheus_data_settle, decoded, returns.
  destruct (and_then (d3_json o) on_body) as [e | v].
  - eexists. split; [reflexivity | split; reflexivity].
  - eexists. split; [reflexivity | split; reflexivity].
Qed.

Section Build.
Variable host : Host.

Lemma build_search_params_instant q w :
  build_search_params host q false w = (Return [("query", query q)], w).
Proof. reflexivity. Qed.

Lemma build_search_params_other_unit q w :
  is_day q = false ->
  build_search_params host q true w
  = (Return [("query", query q)],
     mkWorld (S (clock_reads w)) (requests w) (console w)).
Proof.
  intros Hd. unfold build_search_params, mbind, M_bind, new_Date. cbn.
  rewrite Hd. reflexivity.
Qed.

Lemma build_search_params_day q k w :
  is_day q = true -> range_offset q = Some k ->
  let now := clock host (clock_reads w) in
  let start := UTC (zone host) (LocalTime (zone host) now - k * msPerDay) in
  Z.abs start <= maxTime ->
  exists start_s end_s,
    toISOString (Some start) = Return start_s /\
    toISOString (Some now) = Return end_s /\
    build_search_params host q true w
    = (Return [("query", query q); ("start", start_s); ("end", end_s);
               ("step", step_string q)],
       mkWorld (S (clock_reads w)) (requests w) (console w)).
Proof.
  intros Hd Hk now start Hvalid.
  unfold build_search_params, mbind, M_bind, new_Date. cbn [fst snd].
  rewrite Hd, Hk. cbn [num_neg option_map].
  rewrite setDate_shift. fold now.
  replace (LocalTime (zone host) now + - k * msPerDay)
    with (LocalTime (zone host) now - k * msPerDay) by lia.
  fold start. unfold TimeClip.
  destruct (Z.ltb_spec maxTime (Z.abs start)) as [Hbad | _]; [lia |].
  eexists _, _. split; [reflexivity |]. split; [reflexivity |].
  reflexivity.
Qed.
End Build.

Lemma all_values_filled (entries : list AggregatedEntry) (vs : list (option AggregatedEntry)) :
  length vs = length entries ->
  (forall i e, entries !! i = Some e -> vs !! i = Some (Some e)) ->
  all_values vs = entries.
Proof.
  intros Hlen Hall.
  assert (Hvs : vs = Some <$> entries).
  { apply list_eq. intros i. rewrite list_lookup_fmap.
    destruct (entries !! i) as [e |] eqn:E.
    - rewrite (Hall i e E). reflexivity.
    - cbn. apply lookup_ge_None. apply lookup_ge_None in E. lia. }
  rewrite Hvs. unfold all_values. clear.
  induction entries as [| e es IH]; [reflexivity |]. cbn. rewrite IH. reflexivity.
Qed.

Lemma all_init_inv (entries : list AggregatedEntry) :
  all_inv entries (seq 0 (length entries)) (all_init (length entries)).
Proof.
  unfold all_inv, all_init. cbn [slots remaining outcome].
  split; [apply NoDup_seq |].
  split; [intros i Hi; apply elem_of_seq in Hi; lia |].
  split; [apply length_replicate |].
  split.
  - intros i e He. apply lookup_lt_Some in He.
    rewrite lookup_replicate_2 by lia.
    rewrite bool_decide_eq_true_2; [reflexivity |]. apply elem_of_seq. lia.
  - split; [rewrite length_seq; reflexivity |].
    destruct entries; reflexivity.
Qed.

Lemma all_inv_perm entries p1 p2 st :
  p1 ≡ₚ p2 -> all_inv entries p1 st -> all_inv entries p2 st.
Proof.
  intros Hp (Hnd & Hlt & Hlen & Hslots & Hrem & Hout).
  split; [rewrite <- Hp; exact Hnd |].
  split; [intros i Hi; apply Hlt; rewrite Hp; exact Hi |].
  split; [exact Hlen |].
  split.
  - intros i e He. rewrite (Hslots i e He). f_equal.
    destruct (bool_decide (i ∈ p1)) eqn:E1.
    + apply bool_decide_eq_true in E1. rewrite bool_decide_eq_true_2; [reflexivity |].
      rewrite <- Hp. exact E1.
    + apply bool_decide_eq_false in E1. rewrite bool_decide_eq_false_2; [reflexivity |].
      rewrite <- Hp. exact E1.
  - split; [rewrite <- Hp; exact Hrem |].
    rewrite Hout. destruct p1, p2; try reflexivity.
    + apply Permutation_nil_l in Hp. discriminate.
    + symmetry in Hp. apply Permutation_nil_l in Hp. discriminate.
Qed.

Section FanOut.
Variable host : Host.

(** One promise settles: its entry is stored at its index and the invariant
    holds for the promises that remain. *)
Lemma settle_task_step (tasks : list Task) i rest st w :
  (forall t, t ∈ tasks -> exists r, task_request t = Return r) ->
  all_inv (entry_of_task host <$> tasks) (i :: rest) st ->
  exists st' w',
    settle_task host tasks i st w = (Return st', w')
    /\ all_inv (entry_of_task host <$> tasks) rest st'.
Proof.
  intros Hissued (Hnd & Hlt & Hlen & Hslots & Hrem & Hout).
  apply NoDup_cons in Hnd as [Hi Hnd].
  assert (Hilt : (i < length (entry_of_task host <$> tasks))%nat)
    by (apply Hlt; left).
  rewrite length_fmap in Hilt.
  destruct (lookup_lt_is_Some_2 tasks i Hilt) as [t Ht].
  destruct (Hissued t (list_elem_of_lookup_2 _ _ _ Ht)) as [r Hr].
  assert (He : (entry_of_task host <$> tasks) !! i = Some (entry_of_task host t))
    by (rewrite list_lookup_fmap, Ht; reflexivity).
  pose proof (Hslots i _ He) as Hsi.
  rewrite bool_decide_eq_true_2 in Hsi by left.
  destruct (settle_returns (network host (fst r) (snd r)) w) as (w' & Hw' & _).
  exists (all_resolve i (mkEntry (task_query t) (decoded (network host (fst r) (snd r)))) st), w'.
  split.
  { unfold settle_task. rewrite Ht, Hr, Hsi.
    unfold mbind, M_bind. rewrite Hw'. reflexivity. }
  unfold all_resolve. rewrite Hsi.
  assert (Hent : mkEntry (task_query t) (decoded (network host (fst r) (snd r)))
                 = entry_of_task host t)
    by (unfold entry_of_task; rewrite Hr; reflexivity).
  rewrite Hent.
  assert (Hnew : forall j e, (entry_of_task host <$> tasks) !! j = Some e ->
             <[i := Some (entry_of_task host t)]> (slots st) !! j
             = Some (if bool_decide (j ∈ rest) then None else Some e)).
  { intros j e Hj. destruct (decide (i = j)) as [<- | Hne].
    - rewrite list_lookup_insert_eq by (rewrite Hlen, length_fmap; exact Hilt).
      rewrite bool_decide_eq_false_2 by exact Hi. congruence.
    - rewrite list_lookup_insert_ne by exact Hne.
      rewrite (Hslots j e Hj). f_equal.
      destruct (decide (j ∈ rest)) as [Hin | Hnin].
      + rewrite !bool_decide_eq_true_2; [reflexivity | exact Hin | right; exact Hin].
      + rewrite !bool_decide_eq_false_2; [reflexivity | exact Hnin |].
        intros [-> | Hin]%elem_of_cons; [apply Hne; reflexivity | exact (Hnin Hin)]. }
  repeat split; cbn [slots remaining outcome].
  - exact Hnd.
  - intros j Hj. apply Hlt. right. exact Hj.
  - rewrite length_insert. exact Hlen.
  - exact Hnew.
  - rewrite Hrem. reflexivity.
  - rewrite Hout, Hrem. cbn [length Nat.pred].
    destruct rest as [| j rest']; [| reflexivity]. cbn [length].
    f_equal. f_equal. apply all_values_filled.
    + rewrite length_insert. exact Hlen.
    + intros j e Hj. rewrite (Hnew j e Hj).
      rewrite bool_decide_eq_false_2; [reflexivity | apply not_elem_of_nil].
Qed.

(** When the promises that are awaited settle in the order [schedule], the
    whole fulfils with the entries in the order of the tasks. *)
Lemma settle_all_resolves (tasks : list Task) schedule st w :
  (forall t, t ∈ tasks -> exists r, task_request t = Return r) ->
  all_inv (entry_of_task host <$> tasks) schedule st ->
  exists st' w',
    settle_all host tasks schedule st w = (Return st', w')
    /\ outcome st' = Some (Return (entry_of_task host <$> tasks)).
Proof.
  intros Hissued. revert st w.
  induction schedule as [| i rest IH]; intros st w Hinv.
  - exists st, w. split; [reflexivity |].
    destruct Hinv as (_ & _ & _ & _ & _ & Hout). exact Hout.
  - destruct (settle_task_step tasks i rest st w Hissued Hinv) as (st1 & w1 & Hstep & Hinv1).
    destruct (IH st1 w1 Hinv1) as (st' & w' & Hrest & Hout).
    exists st', w'. split; [| exact Hout].
    cbn [settle_all]. unfold mbind, M_bind. rewrite Hstep. exact Hrest.
Qed.

Lemma build_search_params_requests q b w r w1 :
  build_search_params host q b w = (r, w1) -> requests w1 = requests w.
Proof.
  unfold build_search_params, mbind, M_bind, new_Date, lift, mret, M_ret.
  destruct b; [| intros [= _ <-]; reflexivity].
  cbn [fst snd]. destruct (is_day q); [| intros [= _ <-]; reflexivity].
  destruct (toISOString (timeDay_offset _ _ _)); [intros [= _ <-]; reflexivity |].
  destruct (toISOString (Some _)); intros [= _ <-]; reflexivity.
Qed.

Lemma request_returns q b w :
  builds host q b ->
  exists url w',
    fetch_prometheus_data_request host q b w = (Return (length (requests w), url), w')
    /\ requests w' = (requests w ++ [url])%list.
Proof.
  intros Hb.
  unfold fetch_prometheus_data_request, build_url, log, console_log, issue,
    mbind, M_bind, mret, M_ret.
  match goal with |- context [build_search_params host q b ?w0] =>
    destruct (Hb w0) as (p & ps & w1 & Hps & Hreq) end.
  rewrite Hps. cbn [requests] in Hreq. cbn beta iota.
  cbn [requests clock_reads console]. rewrite Hreq.
  eexists _, _. split; reflexivity.
Qed.

(** The synchronous part of the two [map]s: one task per definition, in
    order, the requests numbered in the order of the definitions. *)
Lemma start_all_returns qs b w :
  (forall q, q ∈ qs -> builds host q b) ->
  exists ts w',
    start_all host qs b w = (Return ts, w')
    /\ task_query <$> ts = qs
    /\ length (requests w') = (length (requests w) + length qs)%nat
    /\ (forall i t, ts !! i = Some t ->
          exists url, task_request t = Return ((length (requests w) + i)%nat, url)).
Proof.
  revert w. induction qs as [| q qs IH]; intros w Hb.
  - exists [], w. repeat split; [cbn; lia | intros i t Hi; discriminate].
  - destruct (request_returns q b w) as (url & w1 & Hreq & Hw1); [apply Hb; left |].
    destruct (IH w1) as (ts & w' & Hts & Hq & Hlen & Hnum);
      [intros q' Hq'; apply Hb; right; exact Hq' |].
    exists (mkTask q (Return (length (requests w), url)) :: ts), w'.
    split; [| split; [| split]].
    + cbn [start_all]. unfold mbind, M_bind, attempt. rewrite Hreq. cbn [fst snd].
      rewrite Hts. reflexivity.
    + cbn. rewrite Hq. reflexivity.
    + rewrite Hlen, Hw1, length_app. cbn. lia.
    + intros [| i] t Hi.
      * injection Hi as <-. exists url. cbn. f_equal. f_equal. lia.
      * cbn in Hi. destruct (Hnum i t Hi) as (u & Hu). exists u. rewrite Hu.
        rewrite Hw1, length_app. cbn. f_equal. f_equal. lia.
Qed.
End FanOut.

Section Aggregate.
Variable host : Host.

Lemma builds_instant q : builds host q false.
Proof.
  intros w. exists ("query", query q), [], w.
  split; [apply build_search_params_instant | reflexivity].
Qed.

Lemma builds_other_unit q : is_day q = false -> builds host q true.
Proof.
  intros Hd w. eexists ("query", query q), [], _.
  split; [apply build_search_params_other_unit; exact Hd | reflexivity].
Qed.

Lemma builds_day q k :
  clock_valid host -> zone_bounded host ->
  is_day q = true -> range_offset q = Some k ->
  0 <= k -> k * msPerDay <= maxTime - 2 * msPerDay ->
  builds host q true.
Proof.
  intros Hclock Hzone Hd Hk Hk0 Hkmax w.
  destruct (build_search_params_day host q k w Hd Hk) as (s & e & _ & _ & Hps).
  - unfold UTC, LocalTime.
    pose proof (Hclock (clock_reads w)) as Hnow.
    pose proof (Hzone (clock host (clock_reads w)) true) as Hz1.
    match goal with |- context [zone host ?t false] =>
      pose proof (Hzone t false) as Hz2 end.
    unfold msPerDay, maxTime in *. lia.
  - eexists _, _, _. split; [exact Hps | reflexivity].
Qed.

(** The result of the fan-out is fixed before any request completes: for
    every order of completion the promise fulfils with the same entries, one
    per definition, in the order of the catalogue. *)
Lemma fetch_all_with_resolves qs rqs w :
  (forall q, q ∈ qs -> builds host q false) ->
  (forall q, q ∈ rqs -> builds host q true) ->
  exists es,
    (forall schedule, schedule ≡ₚ seq 0 (length qs + length rqs) ->
       exists w', fetch_all_with host qs rqs schedule w
                  = (Return (Some (Return es)), w'))
    /\ entry_query <$> es = (qs ++ rqs)%list
    /\ (forall i e, es !! i = Some e ->
          exists url,
            entry_data e = decoded (network host (length (requests w) + i)%nat url)).
Proof.
  intros Hqs Hrqs.
  destruct (start_all_returns host qs false w Hqs) as (ts1 & w1 & H1 & Hq1 & Hlen1 & Hnum1).
  destruct (start_all_returns host rqs true w1 Hrqs) as (ts2 & w2 & H2 & Hq2 & _ & Hnum2).
  assert (Hl1 : length ts1 = length qs) by (rewrite <- Hq1, length_fmap; reflexivity).
  assert (Hl2 : length ts2 = length rqs) by (rewrite <- Hq2, length_fmap; reflexivity).
  assert (Hissued : forall i t, (ts1 ++ ts2)%list !! i = Some t ->
            exists url, task_request t = Return ((length (requests w) + i)%nat, url)).
  { intros i t Hi. apply lookup_app_Some in Hi as [Hi | [Hge Hi]].
    - apply Hnum1. exact Hi.
    - destruct (Hnum2 _ _ Hi) as (url & Hu). exists url. rewrite Hu.
      f_equal. f_equal. lia. }
  exists (entry_of_task host <$> (ts1 ++ ts2)%list).
  split; [| split].
  - intros schedule Hperm.
    destruct (settle_all_resolves host (ts1 ++ ts2)%list schedule
                (all_init (length (ts1 ++ ts2)%list)) w2) as (st & w' & Hst & Hout).
    + intros t [i Hi]%list_elem_of_lookup_1.
      destruct (Hissued i t Hi) as (url & Hu). eauto.
    + apply (all_inv_perm _ (seq 0 (length (ts1 ++ ts2)%list))).
      * rewrite length_app, Hl1, Hl2. symmetry. exact Hperm.
      * pose proof (all_init_inv (entry_of_task host <$> (ts1 ++ ts2)%list)) as Hinit.
        rewrite length_fmap in Hinit. exact Hinit.
    + exists w'. unfold fetch_all_with, mbind, M_bind. rewrite H1, H2, Hst, Hout.
      reflexivity.
  - rewrite <- list_fmap_compose, fmap_app. rewrite <- Hq1, <- Hq2. reflexivity.
  - intros i e Hi. rewrite list_lookup_fmap in Hi.
    destruct ((ts1 ++ ts2)%list !! i) as [t |] eqn:Ht; [| discriminate].
    injection Hi as <-. destruct (Hissued i t Ht) as (url & Hu).
    exists url. unfold entry_of_task. rewrite Hu. reflexivity.
Qed.

Lemma catalogue_builds :
  clock_valid host -> zone_bounded host ->
  (forall q, q ∈ queries -> builds host q false)
  /\ (forall q, q ∈ range_queries -> builds host q true).
Proof.
  intros Hclock Hzone. split.
  - intros q _. apply builds_instant.
  - intros q Hq. unfold range_queries in Hq.
    repeat (apply elem_of_cons in Hq as [-> | Hq]);
      [ apply (builds_day _ 1) | apply (builds_day _ 1) | apply (builds_day _ 7) | ];
      try assumption; try reflexivity; try (unfold msPerDay, maxTime; lia).
    apply elem_of_nil in Hq. destruct Hq.
Qed.
End Aggregate.

(** ** The URL of a request *)

Lemma build_url_of_params host q b w p ps w1 :
  build_search_params host q b
    (mkWorld (clock_reads w) (requests w)
       (console w ++ [[ArgString chart; ArgString "Fetching data"; ArgQuery q; ArgBool b]]))
  = (Return (p :: ps), w1) ->
  exists url w',
    build_url host q b w = (Return url, w')
    /\ url_base url = base_url b
    /\ url_query url = Some (URLSearchParams_toString (p :: ps))
    /\ parse_search <$> url_query url = Some (p :: ps).
Proof.
  intros Hps.
  unfold build_url, log, console_log, mbind, M_bind, mret, M_ret.
  rewrite Hps. cbn beta iota.
  eexists _, _. split; [reflexivity |].
  split; [destruct (URLSearchParams_toString (p :: ps)); reflexivity |].
  rewrite set_search_toString. split; [reflexivity |].
  cbn [fmap option_fmap option_map]. rewrite parse_search_toString. reflexivity.
Qed.

(** C5: in instant mode the URL of every definition is the instant-query
    endpoint followed by a query string that consists of the single
    parameter [query], which reads back as the raw expression; there is no
    [start], [end] or [step]. *)
Theorem instant_url_single_query_param host q w :
  exists url w',
    build_url host q false w = (Return url, w')
    /\ url_base url = "http://prometheus.flatironinstitute.org/api/v1/query"
    /\ url_query url = Some ("query=" +:+ form_urlencode (query q))
    /\ parse_search <$> url_query url = Some [("query", query q)].
Proof.
  destruct (build_url_of_params host q false w ("query", query q) [] _
              (build_search_params_instant host q _))
    as (url & w' & Hurl & Hbase & Hquery & Hparse).
  exists url, w'. repeat split; assumption.
Qed.




(** C3 fails on the code: a range definition in weeks is not refused, and
    neither is one without a unit; the builder returns the range URL with
    the single parameter [query]. *)
Lemma weekly_unit_is_not_refused :
  run (build_url healthy_host weekly_query true)
  = Return (mkURL "http://prometheus.flatironinstitute.org/api/v1/query_range"
                  (Some "query=up"))
  /\ run (build_url healthy_host plain_query true)
     = Return (mkURL "http://prometheus.flatironinstitute.org/api/v1/query_range"
                     (Some "query=up"))
  /\ ~ (forall host q w, range_unit q <> Some "day" ->
          exists e w', build_url host q true w = (Throw e, w')).
Proof.
  split; [reflexivity |]. split; [reflexivity |].
  intros Hclaim.
  destruct (Hclaim healthy_host weekly_query initial_world) as (e & w' & He);
    [discriminate |].
  discriminate He.
Qed.

(** C3, amended: in range mode a definition whose unit is not ["day"] is
    built without error into the range-endpoint URL whose query string is
    the single parameter [query], with no [start], [end] or [step]. *)
Theorem other_unit_url_has_no_window host q w :
  range_unit q <> Some "day" ->
  exists url w',
    build_url host q true w = (Return url, w')
    /\ url_base url = "http://prometheus.flatironinstitute.org/api/v1/query_range"
    /\ url_query url = Some ("query=" +:+ form_urlencode (query q))
    /\ parse_search <$> url_query url = Some [("query", query q)].
Proof.
  intros Hunit.
  assert (Hday : is_day q = false).
  { unfold is_day. destruct (range_unit q) as [u |] eqn:E; [| reflexivity].
    destruct (String.eqb_spec u "day") as [-> | _]; [contradiction | reflexivity]. }
  destruct (build_url_of_params host q true w ("query", query q) [] _
              (build_search_params_other_unit host q _ Hday))
    as (url & w' & Hurl & Hbase & Hquery & Hparse).
  exists url, w'. repeat split; assumption.
Qed.

Lemma other_unit_url_has_no_window_witness :
  range_unit weekly_query <> Some "day"
  /\ exists url w',
       build_url healthy_host weekly_query true initial_world = (Return url, w')
       /\ url_base url = "http://prometheus.flatironinstitute.org/api/v1/query_range"
       /\ url_query url = Some ("query=" +:+ form_urlencode (query weekly_query))
       /\ parse_search <$> url_query url = Some [("query", query weekly_query)].
Proof.
  split; [discriminate |].
  apply (other_unit_url_has_no_window healthy_host weekly_query initial_world).
  discriminate.
Defined.

Lemma builds_range host q :
  clock_valid host -> zone_bounded host -> window_supported q -> builds host q true.
Proof.
  intros Hclock Hzone Hq. destruct (is_day q) eqn:Hday.
  - destruct (Hq Hday) as (k & Hk & Hk0 & Hkmax).
    exact (builds_day host q k Hclock Hzone Hday Hk Hk0 Hkmax).
  - apply builds_other_unit. exact Hday.
Qed.

(** ** Decoding *)

(** A response with content and an [ok] status gives its parsed body. *)
Lemma d3_json_body r body :
  response_ok r = true -> status r <> 204 -> status r <> 205 ->
  json r = Return body ->
  d3_json (Responded r) = Return body.
Proof.
  intros Hok H204 H205 Hjson. unfold d3_json. rewrite Hok. cbn [negb].
  destruct (Z.eqb_spec (status r) 204); [contradiction |].
  destruct (Z.eqb_spec (status r) 205); [contradiction |].
  exact Hjson.
Qed.

(** The [.then] handler on an error envelope. *)
Lemma on_body_error_envelope body msg :
  get body "status" = Return (JStr "error") ->
  get body "error" = Return (JStr msg) ->
  on_body body = Throw (Error ("Prometheus error: " +:+ msg)).
Proof.
  intros Hst Herr. unfold on_body. rewrite Hst.
  cbn [and_then strict_eq_string String.eqb Ascii.eqb Bool.eqb].
  rewrite Herr. reflexivity.
Qed.

(** Whatever the status line, an answer with an error envelope makes the
    chain throw. *)
Lemma error_envelope_throws r body msg :
  json r = Return body ->
  get body "status" = Return (JStr "error") ->
  get body "error" = Return (JStr msg) ->
  exists e, and_then (d3_json (Responded r)) on_body = Throw e.
Proof.
  intros Hjson Hst Herr. unfold d3_json.
  destruct (response_ok r); cbn [negb]; [| eexists; reflexivity].
  destruct ((status r =? 204) || (status r =? 205)); [eexists; reflexivity |].
  rewrite Hjson. cbn [and_then]. rewrite (on_body_error_envelope body msg Hst Herr).
  eexists. reflexivity.
Qed.

Lemma decoded_service_error o msg : is_service_error o msg -> decoded o = JUndefined.
Proof.
  intros (r & body & -> & Hjson & Hst & Herr).
  destruct (error_envelope_throws r body msg Hjson Hst Herr) as (e & He).
  unfold decoded. rewrite He. reflexivity.
Qed.

Lemma decoded_success o series : is_success o series -> decoded o = JArr series.
Proof.
  intros (r & body & data & -> & Hok & H204 & H205 & Hjson & Hst & Hdata & Hres).
  unfold decoded. rewrite (d3_json_body r body Hok H204 H205 Hjson).
  cbn [and_then]. unfold on_body.
  rewrite Hst. cbn -[get]. rewrite Hdata. cbn [and_then]. rewrite Hres. reflexivity.
Qed.

Lemma fetch_prometheus_data_instant host q w :
  exists url w',
    fetch_prometheus_data host q false w
    = (Return (decoded (network host (length (requests w)) url)), w').
Proof.
  destruct (request_returns host q false w (builds_instant host q))
    as (url & w1 & Hreq & _).
  destruct (settle_returns (network host (length (requests w)) url) w1)
    as (w' & Hw' & _).
  exists url, w'. unfold fetch_prometheus_data, mbind, M_bind.
  rewrite Hreq. exact Hw'.
Qed.

(** C8: decoding the sample success envelope gives one result, whose labels
    are [{cluster: "x"}] and whose sample is [(1700000000, "4")]; it is what
    [fetch_prometheus_data] resolves with when the service answers with that
    envelope. *)
Theorem success_envelope_round_trip :
  exists results,
    on_body success_envelope = Return results
    /\ as_results results = Some [mkResult [("cluster", "x")] (1700000000, "4")]
    /\ run (fetch_prometheus_data healthy_host plain_query false) = Return results.
Proof.
  exists (JArr [sample_series]).
  split; [reflexivity |]. split; reflexivity.
Qed.

(** ** The fan-out over the catalogue *)

Lemma catalogue_fetch host w :
  clock_valid host -> zone_bounded host ->
  exists es,
    (forall schedule, settles_each_once 9 schedule ->
       exists w', fetch_all_prometheus_data host schedule w
                  = (Return (Some (Return es)), w'))
    /\ entry_query <$> es = (queries ++ range_queries)%list
    /\ length es = 9%nat.
Proof.
  intros Hclock Hzone.
  destruct (catalogue_builds host Hclock Hzone) as [Hqs Hrqs].
  destruct (fetch_all_with_resolves host queries range_queries w Hqs Hrqs)
    as (es & Hrun & Hq & _).
  exists es. split; [exact Hrun |]. split; [exact Hq |].
  rewrite <- (length_fmap entry_query), Hq. reflexivity.
Qed.

(** C2: whatever the network does for each request, the promise of
    [fetch_all_prometheus_data] fulfils with the complete sequence of nine
    entries and does not reject, once every request has completed. *)
Theorem fetch_all_always_resolves host schedule :
  clock_valid host -> zone_bounded host -> settles_each_once 9 schedule ->
  exists es,
    run (fetch_all_prometheus_data host schedule) = Return (Some (Return es))
    /\ length es = 9%nat
    /\ forall e, run (fetch_all_prometheus_data host schedule) <> Return (Some (Throw e)).
Proof.
  intros Hclock Hzone Hsched.
  destruct (catalogue_fetch host initial_world Hclock Hzone) as (es & Hrun & _ & Hlen).
  destruct (Hrun schedule Hsched) as (w' & Hw').
  exists es. unfold run. rewrite Hw'. cbn [fst].
  split; [reflexivity |]. split; [exact Hlen |]. discriminate.
Qed.

Lemma sample_clock_valid net : clock_valid (mkHost sample_clock sample_zone net).
Proof. intros n. unfold sample_clock, maxTime, msPerDay. cbn. lia. Defined.

Lemma sample_zone_bounded net : zone_bounded (mkHost sample_clock sample_zone net).
Proof. intros t b. unfold sample_zone, fixed_zone, msPerDay. cbn. lia. Defined.

Lemma scrambled_schedule : settles_each_once 9 [8; 3; 2; 1; 0; 7; 6; 5; 4]%nat.
Proof. unfold settles_each_once. apply (bool_decide_unpack _). vm_compute. exact I. Defined.

Lemma in_order_schedule n : settles_each_once n (seq 0 n).
Proof. unfold settles_each_once. reflexivity. Defined.

Lemma fetch_all_always_resolves_witness :
  clock_valid unreachable_host /\ zone_bounded unreachable_host
  /\ settles_each_once 9 [8; 3; 2; 1; 0; 7; 6; 5; 4]%nat
  /\ exists es,
       run (fetch_all_prometheus_data unreachable_host [8; 3; 2; 1; 0; 7; 6; 5; 4]%nat)
       = Return (Some (Return es))
       /\ length es = 9%nat
       /\ forall e, run (fetch_all_prometheus_data unreachable_host
                           [8; 3; 2; 1; 0; 7; 6; 5; 4]%nat) <> Return (Some (Throw e)).
Proof.
  split; [apply sample_clock_valid |]. split; [apply sample_zone_bounded |].
  split; [apply scrambled_schedule |].
  apply (fetch_all_always_resolves unreachable_host [8; 3; 2; 1; 0; 7; 6; 5; 4]%nat).
  - apply sample_clock_valid.
  - apply sample_zone_bounded.
  - apply scrambled_schedule.
Defined.

(** C4: the entries come in catalogue order, the six instant definitions
    and then the three range definitions, and the whole result is the same
    for any two orders in which the requests complete. *)
Theorem fetch_all_order_is_catalogue_order host schedule1 schedule2 :
  clock_valid host -> zone_bounded host ->
  settles_each_once 9 schedule1 -> settles_each_once 9 schedule2 ->
  run (fetch_all_prometheus_data host schedule1)
  = run (fetch_all_prometheus_data host schedule2)
  /\ exists es,
       run (fetch_all_prometheus_data host schedule1) = Return (Some (Return es))
       /\ entry_query <$> es = (queries ++ range_queries)%list.
Proof.
  intros Hclock Hzone Hs1 Hs2.
  destruct (catalogue_fetch host initial_world Hclock Hzone) as (es & Hrun & Hq & _).
  destruct (Hrun schedule1 Hs1) as (w1 & Hw1).
  destruct (Hrun schedule2 Hs2) as (w2 & Hw2).
  unfold run. rewrite Hw1, Hw2. cbn [fst].
  split; [reflexivity |]. exists es. split; [reflexivity | exact Hq].
Qed.

Lemma fetch_all_order_is_catalogue_order_witness :
  clock_valid (host_failing_at 2 "bad query")
  /\ zone_bounded (host_failing_at 2 "bad query")
  /\ settles_each_once 9 [8; 3; 2; 1; 0; 7; 6; 5; 4]%nat
  /\ settles_each_once 9 (seq 0 9)
  /\ run (fetch_all_prometheus_data (host_failing_at 2 "bad query")
            [8; 3; 2; 1; 0; 7; 6; 5; 4]%nat)
     = run (fetch_all_prometheus_data (host_failing_at 2 "bad query") (seq 0 9))
  /\ exists es,
       run (fetch_all_prometheus_data (host_failing_at 2 "bad query")
              [8; 3; 2; 1; 0; 7; 6; 5; 4]%nat) = Return (Some (Return es))
       /\ entry_query <$> es = (queries ++ range_queries)%list.
Proof.
  split; [apply sample_clock_valid |]. split; [apply sample_zone_bounded |].
  split; [apply scrambled_schedule |]. split; [apply in_order_schedule |].
  apply (fetch_all_order_is_catalogue_order (host_failing_at 2 "bad query")
           [8; 3; 2; 1; 0; 7; 6; 5; 4]%nat (seq 0 9)).
  - apply sample_clock_valid.
  - apply sample_zone_bounded.
  - apply scrambled_schedule.
  - apply in_order_schedule.
Defined.

(** C10: once every request has completed, [fetch_all_prometheus_data] has
    fulfilled with exactly nine entries, the [query] of each being the
    definition at its place in the catalogue, however many of the fetches
    failed; the value stored in [data_signal] then has nine entries and
    [data_loaded_signal] is true. *)
Theorem fetch_all_nine_entries_then_loaded host schedule :
  clock_valid host -> zone_bounded host -> settles_each_once 9 schedule ->
  (exists es,
     run (fetch_all_prometheus_data host schedule) = Return (Some (Return es))
     /\ length es = 9%nat
     /\ forall i q, (queries ++ range_queries)%list !! i = Some q ->
                    entry_query <$> es !! i = Some q)
  /\ exists data_signal,
       run (App_effect host schedule) = Return data_signal
       /\ length data_signal = 9%nat
       /\ data_loaded_signal data_signal = true.
Proof.
  intros Hclock Hzone Hsched. split.
  - destruct (catalogue_fetch host initial_world Hclock Hzone) as (es & Hrun & Hq & Hlen).
    destruct (Hrun schedule Hsched) as (w' & Hw').
    exists es. unfold run. rewrite Hw'. cbn [fst].
    split; [reflexivity |]. split; [exact Hlen |].
    intros i q Hi. rewrite <- Hq, list_lookup_fmap in Hi. exact Hi.
  - unfold run, App_effect, log, console_log, mbind, M_bind. cbn beta iota.
    match goal with |- context [fetch_all_prometheus_data host schedule ?w0] =>
      destruct (catalogue_fetch host w0 Hclock Hzone) as (es & Hrun & _ & Hlen) end.
    destruct (Hrun schedule Hsched) as (w' & Hw').
    rewrite Hw'. cbn beta iota.
    exists es. split; [reflexivity |]. split; [exact Hlen |].
    unfold data_loaded_signal. rewrite Hlen. reflexivity.
Qed.

Lemma fetch_all_nine_entries_then_loaded_witness :
  clock_valid unreachable_host /\ zone_bounded unreachable_host
  /\ settles_each_once 9 [4; 5; 6; 7; 0; 1; 2; 3; 8]%nat
  /\ (exists es,
        run (fetch_all_prometheus_data unreachable_host [4; 5; 6; 7; 0; 1; 2; 3; 8]%nat)
        = Return (Some (Return es))
        /\ length es = 9%nat
        /\ forall i q, (queries ++ range_queries)%list !! i = Some q ->
                       entry_query <$> es !! i = Some q)
  /\ exists data_signal,
       run (App_effect unreachable_host [4; 5; 6; 7; 0; 1; 2; 3; 8]%nat)
       = Return data_signal
       /\ length data_signal = 9%nat
       /\ data_loaded_signal data_signal = true.
Proof.
  assert (Hsched : settles_each_once 9 [4; 5; 6; 7; 0; 1; 2; 3; 8]%nat).
  { unfold settles_each_once. apply (bool_decide_unpack _). vm_compute. exact I. }
  split; [apply sample_clock_valid |]. split; [apply sample_zone_bounded |].
  split; [exact Hsched |].
  apply (fetch_all_nine_entries_then_loaded unreachable_host
           [4; 5; 6; 7; 0; 1; 2; 3; 8]%nat).
  - apply sample_clock_valid.
  - apply sample_zone_bounded.
  - exact Hsched.
Defined.

(** C1 fails on the code: the entry of the failing query carries no error.
    With the third request answered by an error envelope, the third entry
    holds the definition and [undefined], and it is the same entry whatever
    the message of the service, so that no reading of the entry gives the
    error back. *)
Lemma failed_entry_carries_no_error :
  (exists es,
     run (fetch_all_prometheus_data (host_failing_at 2 "bad query") (seq 0 9))
     = Return (Some (Return es))
     /\ (fun e => (name (entry_query e), entry_data e)) <$> es !! 2%nat
        = Some ("cpus_percent_free", JUndefined))
  /\ ~ (exists error_of : AggregatedEntry -> string,
          forall msg, exists es e,
            run (fetch_all_prometheus_data (host_failing_at 2 msg) (seq 0 9))
            = Return (Some (Return es))
            /\ es !! 2%nat = Some e /\ error_of e = msg).
Proof.
  split.
  - eexists. split; [vm_compute; reflexivity | reflexivity].
  - intros (error_of & Hclaim).
    destruct (Hclaim "bad query") as (es1 & e1 & Hrun1 & He1 & Hm1).
    destruct (Hclaim "no such metric") as (es2 & e2 & Hrun2 & He2 & Hm2).
    vm_compute in Hrun1. vm_compute in Hrun2.
    injection Hrun1 as <-. injection Hrun2 as <-.
    cbn in He1, He2. injection He1 as <-. injection He2 as <-.
    rewrite Hm1 in Hm2. discriminate Hm2.
Qed.

(** C1, amended: over a catalogue of [N] instant and [M] range definitions
    with representable windows, when the request of one instant definition
    is answered by an error envelope (with whatever status line) and every
    other request [i] by a success envelope whose [data.result] is
    [series_of i], the promise fulfils with [N + M] entries in catalogue
    order, each holding its definition; the data of the failing entry is
    [undefined] and the data of every other entry [i] is [series_of i]. *)
Theorem one_service_error_is_isolated host qs rqs schedule j qj msg series_of :
  clock_valid host -> zone_bounded host -> Forall window_supported rqs ->
  settles_each_once (length qs + length rqs) schedule ->
  qs !! j = Some qj ->
  (forall url, is_service_error (network host j url) msg) ->
  (forall i url, i <> j -> (i < length qs + length rqs)%nat ->
                 is_success (network host i url) (series_of i)) ->
  exists es,
    run (fetch_all_with host qs rqs schedule) = Return (Some (Return es))
    /\ length es = (length qs + length rqs)%nat
    /\ entry_query <$> es = (qs ++ rqs)%list
    /\ es !! j = Some (mkEntry qj JUndefined)
    /\ (forall i e, i <> j -> es !! i = Some e -> entry_data e = JArr (series_of i)).
Proof.
  intros Hclock Hzone Hrqs Hsched Hj Hfail Hok.
  destruct (fetch_all_with_resolves host qs rqs initial_world) as (es & Hrun & Hq & Hdata).
  { intros q _. apply builds_instant. }
  { intros q Hq. apply builds_range; [exact Hclock | exact Hzone |].
    rewrite Forall_forall in Hrqs. apply Hrqs. exact Hq. }
  destruct (Hrun schedule Hsched) as (w' & Hw').
  assert (Hlen : length es = (length qs + length rqs)%nat).
  { rewrite <- (length_fmap entry_query), Hq, length_app. reflexivity. }
  exists es. unfold run. rewrite Hw'. cbn [fst].
  split; [reflexivity |]. split; [exact Hlen |]. split; [exact Hq |].
  split.
  - assert (Hqj : entry_query <$> es !! j = Some qj).
    { rewrite <- list_lookup_fmap, Hq. apply lookup_app_l_Some. exact Hj. }
    destruct (es !! j) as [e |] eqn:He; [| discriminate].
    injection Hqj as Hqj.
    destruct (Hdata j e He) as (url & Hd). cbn [initial_world requests length Nat.add] in Hd.
    rewrite (decoded_service_error _ msg (Hfail url)) in Hd.
    destruct e as [q d]. cbn in Hqj, Hd. subst. reflexivity.
  - intros i e Hne He.
    destruct (Hdata i e He) as (url & Hd). cbn [initial_world requests length Nat.add] in Hd.
    apply lookup_lt_Some in He. rewrite Hlen in He.
    rewrite Hd. apply decoded_success. exact (Hok i url Hne He).
Qed.

Lemma sample_answer_success : is_success (answer success_envelope) [sample_series].
Proof.
  eexists _, _, _. split; [reflexivity |]. split; [reflexivity |].
  split; [discriminate |]. split; [discriminate |].
  repeat split; reflexivity.
Defined.

Lemma sample_answer_error msg : is_service_error (answer (error_envelope msg)) msg.
Proof.
  eexists _, _. split; [reflexivity |]. split; [reflexivity |].
  split; reflexivity.
Defined.

Lemma sample_refusal_error msg :
  is_service_error (Responded (mkResponse 400 "Bad Request" (Return (error_envelope msg))))
                   msg.
Proof.
  eexists _, _. split; [reflexivity |]. split; [reflexivity |].
  split; reflexivity.
Defined.

Lemma catalogue_windows_supported : Forall window_supported range_queries.
Proof.
  unfold range_queries.
  apply List.Forall_cons; [| apply List.Forall_cons; [| apply List.Forall_cons;
    [| apply List.Forall_nil]]];
    intros _; [exists 1 | exists 1 | exists 7];
    (split; [reflexivity | unfold maxTime, msPerDay; lia]).
Defined.

Lemma one_service_error_is_isolated_witness :
  exists qj,
    clock_valid (host_refusing_at 2 "bad query")
    /\ zone_bounded (host_refusing_at 2 "bad query")
    /\ Forall window_supported range_queries
    /\ settles_each_once (length queries + length range_queries)
                         [8; 3; 2; 1; 0; 7; 6; 5; 4]%nat
    /\ queries !! 2%nat = Some qj
    /\ (forall url, is_service_error (network (host_refusing_at 2 "bad query") 2 url)
                                     "bad query")
    /\ (forall i url, i <> 2%nat -> (i < length queries + length range_queries)%nat ->
          is_success (network (host_refusing_at 2 "bad query") i url)
                     ((fun _ => [sample_series]) i))
    /\ exists es,
         run (fetch_all_with (host_refusing_at 2 "bad query") queries range_queries
                [8; 3; 2; 1; 0; 7; 6; 5; 4]%nat) = Return (Some (Return es))
         /\ length es = (length queries + length range_queries)%nat
         /\ entry_query <$> es = (queries ++ range_queries)%list
         /\ es !! 2%nat = Some (mkEntry qj JUndefined)
         /\ (forall i e, i <> 2%nat -> es !! i = Some e ->
               entry_data e = JArr ((fun _ => [sample_series]) i)).
Proof.
  assert (Hfail : forall url, is_service_error
                    (network (host_refusing_at 2 "bad query") 2 url) "bad query")
    by (intros url; apply sample_refusal_error).
  assert (Hok : forall (i : nat) (url : string), i <> 2%nat ->
            (i < length queries + length range_queries)%nat ->
            is_success (network (host_refusing_at 2 "bad query") i url)
                       ((fun _ => [sample_series]) i)).
  { intros i url Hne _. cbn [network host_refusing_at].
    destruct (Nat.eqb_spec i 2) as [-> | _]; [contradiction | apply sample_answer_success]. }
  eexists.
  split; [apply sample_clock_valid |]. split; [apply sample_zone_bounded |].
  split; [apply catalogue_windows_supported |].
  split; [apply scrambled_schedule |].
  split; [reflexivity |]. split; [exact Hfail |]. split; [exact Hok |].
  apply (one_service_error_is_isolated (host_refusing_at 2 "bad query") queries
           range_queries [8; 3; 2; 1; 0; 7; 6; 5; 4]%nat 2 _ "bad query"
           (fun _ => [sample_series])).
  - apply sample_clock_valid.
  - apply sample_zone_bounded.
  - apply catalogue_windows_supported.
  - apply scrambled_schedule.
  - reflexivity.
  - exact Hfail.
  - exact Hok.
Defined.

Lemma seven_day_window_supported : window_supported seven_day_query.
Proof.
  intros _. exists 7. split; [reflexivity |]. unfold maxTime, msPerDay. lia.
Defined.

(** C7 fails on the code: for the envelope [{status: "error", error: "bad
    query"}] the single-query result is [undefined], not an error, and it is
    the same for any other message. *)
Lemma error_envelope_result_is_undefined :
  run (fetch_prometheus_data (host_failing_at 0 "bad query") plain_query false)
  = Return JUndefined
  /\ run (fetch_prometheus_data (host_failing_at 0 "no such metric") plain_query false)
     = Return JUndefined
  /\ ~ (exists e, run (fetch_prometheus_data (host_failing_at 0 "bad query")
                         plain_query false) = Throw e).
Proof.
  split; [reflexivity |]. split; [reflexivity |].
  intros (e & He). discriminate He.
Qed.

(** C7, amended: for a response whose body is an error envelope with the
    message [msg], the [.then] handler throws an [Error] whose message is
    ["Prometheus error: "] followed by [msg] when the status of the response
    is [ok]; when it is not, [d3.json] throws an [Error] with the status
    line and the handler does not run.  Either way the error is caught
    inside [fetch_prometheus_data], whose result, in instant and in range
    mode, is [undefined]. *)
Theorem error_envelope_is_caught host q is_range_query w r body msg :
  (is_range_query = true ->
     clock_valid host /\ zone_bounded host /\ window_supported q) ->
  json r = Return body ->
  get body "status" = Return (JStr "error") ->
  get body "error" = Return (JStr msg) ->
  (forall n url, network host n url = Responded r) ->
  on_body body = Throw (Error ("Prometheus error: " +:+ msg))
  /\ (response_ok r = true -> status r <> 204 -> status r <> 205 ->
        and_then (d3_json (Responded r)) on_body
        = Throw (Error ("Prometheus error: " +:+ msg)))
  /\ (response_ok r = false ->
        and_then (d3_json (Responded r)) on_body
        = Throw (Error (Number_toString (status r) +:+ " " +:+ statusText r)))
  /\ exists w',
       fetch_prometheus_data host q is_range_query w = (Return JUndefined, w').
Proof.
  intros Hrange Hjson Hst Herr Hnet.
  pose proof (on_body_error_envelope body msg Hst Herr) as Hbody.
  split; [exact Hbody |].
  split.
  { intros Hok H204 H205. rewrite (d3_json_body r body Hok H204 H205 Hjson).
    exact Hbody. }
  split.
  { intros Hok. unfold d3_json. rewrite Hok. reflexivity. }
  assert (Hb : builds host q is_range_query).
  { destruct is_range_query.
    - destruct (Hrange eq_refl) as (Hclock & Hzone & Hq).
      exact (builds_range host q Hclock Hzone Hq).
    - apply builds_instant. }
  destruct (request_returns host q is_range_query w Hb) as (url & w1 & Hreq & _).
  destruct (settle_returns (network host (length (requests w)) url) w1) as (w' & Hw' & _).
  exists w'. unfold fetch_prometheus_data, mbind, M_bind. rewrite Hreq.
  cbn [fst snd]. rewrite Hw'. f_equal. f_equal.
  apply (decoded_service_error _ msg). rewrite Hnet. exists r, body.
  split; [reflexivity |]. split; [exact Hjson |]. split; assumption.
Qed.

Lemma error_envelope_is_caught_witness :
  (true = true ->
     clock_valid (refusing_host "bad query") /\ zone_bounded (refusing_host "bad query")
     /\ window_supported seven_day_query)
  /\ json (mkResponse 400 "Bad Request" (Return (error_envelope "bad query")))
     = Return (error_envelope "bad query")
  /\ get (error_envelope "bad query") "status" = Return (JStr "error")
  /\ get (error_envelope "bad query") "error" = Return (JStr "bad query")
  /\ (forall n url,
        network (refusing_host "bad query") n url
        = Responded (mkResponse 400 "Bad Request" (Return (error_envelope "bad query"))))
  /\ on_body (error_envelope "bad query") = Throw (Error ("Prometheus error: " +:+ "bad query"))
  /\ (response_ok (mkResponse 400 "Bad Request" (Return (error_envelope "bad query"))) = true ->
        status (mkResponse 400 "Bad Request" (Return (error_envelope "bad query"))) <> 204 ->
        status (mkResponse 400 "Bad Request" (Return (error_envelope "bad query"))) <> 205 ->
        and_then (d3_json (Responded (mkResponse 400 "Bad Request"
                                        (Return (error_envelope "bad query"))))) on_body
        = Throw (Error ("Prometheus error: " +:+ "bad query")))
  /\ (response_ok (mkResponse 400 "Bad Request" (Return (error_envelope "bad query"))) = false ->
        and_then (d3_json (Responded (mkResponse 400 "Bad Request"
                                        (Return (error_envelope "bad query"))))) on_body
        = Throw (Error (Number_toString
                          (status (mkResponse 400 "Bad Request"
                                     (Return (error_envelope "bad query"))))
                        +:+ " "
                        +:+ statusText (mkResponse 400 "Bad Request"
                                          (Return (error_envelope "bad query"))))))
  /\ exists w',
       fetch_prometheus_data (refusing_host "bad query") seven_day_query true initial_world
       = (Return JUndefined, w').
Proof.
  assert (Hrange : true = true ->
            clock_valid (refusing_host "bad query")
            /\ zone_bounded (refusing_host "bad query")
            /\ window_supported seven_day_query).
  { intros _. split; [apply sample_clock_valid |].
    split; [apply sample_zone_bounded | apply seven_day_window_supported]. }
  split; [exact Hrange |]. split; [reflexivity |]. split; [reflexivity |].
  split; [reflexivity |]. split; [reflexivity |].
  apply (error_envelope_is_caught (refusing_host "bad query") seven_day_query true
           initial_world (mkResponse 400 "Bad Request" (Return (error_envelope "bad query")))
           (error_envelope "bad query") "bad query");
    [exact Hrange | reflexivity | reflexivity | reflexivity | reflexivity].
Defined.

(** ** Worked examples *)

Example iso_of_sample_clock :
  toISOString (Some 1700000000123) = Return "2023-11-14T22:13:20.123Z".
Proof. reflexivity. Qed.

(** The request of the last range definition of the catalogue on the sample
    host. *)
Example node_count_request :
  List.map (fun q => run (fetch_prometheus_data_request healthy_host q true))
           (List.skipn 2 range_queries)
  = [Return (0%nat,
             "http://prometheus.flatironinstitute.org/api/v1/query_range"
             +:+ "?query=sum%28slurm_job_nodes%7Bstate%3D%22running%22%7D%29+by+%28account%29"
             +:+ "&start=2023-11-07T22%3A13%3A20.123Z"
             +:+ "&end=2023-11-14T22%3A13%3A20.123Z&step=90m")].
Proof. vm_compute. reflexivity. Qed.

(** Seven local days across the change of the clocks are seven times 24
    hours and one hour more. *)
Example week_across_clock_change :
  timeDay_offset autumn_zone (Some 1699358400000) (Some (-7))
  = Some (1699358400000 - 7 * msPerDay - msPerHour).
Proof. reflexivity. Qed.

Example not_found_is_an_error :
  d3_json (Responded (mkResponse 404 "Not Found" (Return JNull)))
  = Throw (Error "404 Not Found").
Proof. reflexivity. Qed.

Example bad_query_is_thrown :
  on_body (error_envelope "bad query") = Throw (Error "Prometheus error: bad query").
Proof. reflexivity. Qed.

(** What the console shows for a failed fetch: the two traces of the
    request, then an [Error] without message. *)
Example console_after_service_error :
  List.map (List.skipn 1)
    (console (snd (fetch_prometheus_data (erring_host "bad query") plain_query false
                     initial_world)))
  = [ [ArgString "Fetching data"; ArgQuery plain_query; ArgBool false];
      [ArgString "URL";
       ArgString "http://prometheus.flatironinstitute.org/api/v1/query?query=up"];
      [] ]
  /\ List.last (console (snd (fetch_prometheus_data (erring_host "bad query")
                                plain_query false initial_world))) []
     = [ArgError (Error EmptyString)].
Proof. split; reflexivity. Qed.

(** A definition in days without offset makes its request throw before it
    is issued, and [Promise.all] rejects. *)
Example offsetless_definition_rejects :
  run (fetch_all_with healthy_host [plain_query] [offsetless_query] [0; 1]%nat)
  = Return (Some (Throw (RangeError "Invalid time value"))).
Proof. reflexivity. Qed.

(** The promise stays pending while a request has not completed. *)
Example pending_until_all_complete :
  run (fetch_all_prometheus_data healthy_host [0; 1; 2; 3; 4; 5; 6; 7]%nat) = Return None.
Proof. vm_compute. reflexivity. Qed.

(** * Further properties *)

(** ** Single calls *)


Lemma URL_toString_set_search b p ps :
  URL_toString (URL_set_search (URLSearchParams_toString (p :: ps)) (new_URL b))
  = b +:+ "?" +:+ URLSearchParams_toString (p :: ps).
Proof.
  unfold URL_toString. rewrite set_search_toString.
  destruct (URLSearchParams_toString (p :: ps)); reflexivity.
Qed.

Lemma build_search_params_clock host q b w r w1 :
  build_search_params host q b w = (r, w1) ->
  clock_reads w1 = if b then S (clock_reads w) else clock_reads w.
Proof.
  unfold build_search_params, mbind, M_bind, new_Date, lift, mret, M_ret.
  destruct b; [| intros [= _ <-]; reflexivity].
  cbn [fst snd]. destruct (is_day q); [| intros [= _ <-]; reflexivity].
  destruct (toISOString (timeDay_offset _ _ _)); [intros [= _ <-]; reflexivity |].
  destruct (toISOString (Some _)); intros [= _ <-]; reflexivity.
Qed.

Lemma append_nil_r (s : string) : s +:+ EmptyString = s.
Proof. induction s as [| c s IH]; cbn; [reflexivity |]. rewrite IH. reflexivity. Qed.

(** The parameter list starts with [query], whatever else is set. *)
Lemma build_search_params_head host q b w l w1 :
  build_search_params host q b w = (Return l, w1) ->
  exists ps, l = ("query", query q) :: ps.
Proof.
  unfold build_search_params, mbind, M_bind, new_Date, lift, mret, M_ret.
  destruct b; [| intros [= <- _]; eauto].
  cbn [fst snd]. destruct (is_day q); [| intros [= <- _]; eauto].
  destruct (toISOString (timeDay_offset _ _ _)); [discriminate |].
  destruct (toISOString (Some _)); [discriminate |].
  intros [= <- _]. eauto.
Qed.

(** The serialised list that starts with [query]. *)
Lemma toString_query_first v ps :
  exists rest,
    URLSearchParams_toString (("query", v) :: ps) = "query=" +:+ form_urlencode v +:+ rest
    /\ (ps = [] -> rest = EmptyString).
Proof.
  rewrite toString_cons. unfold pair_string. cbn [fst snd].
  change (form_urlencode "query") with "query".
  destruct ps as [| p ps].
  - exists EmptyString. split; [| reflexivity].
    rewrite append_nil_r. reflexivity.
  - eexists. split; [reflexivity | discriminate].
Qed.

(** What the synchronous part of a call leaves behind when the request can
    be built: one more request, to the endpoint of the mode with [query] as
    the first parameter, and one more reading of the clock in range mode. *)
Lemma request_frame host q b w :
  builds host q b ->
  exists url rest w',
    fetch_prometheus_data_request host q b w = (Return (length (requests w), url), w')
    /\ url = base_url b +:+ "?query=" +:+ form_urlencode (query q) +:+ rest
    /\ (b = false -> rest = EmptyString)
    /\ requests w' = (requests w ++ [url])%list
    /\ clock_reads w' = (if b then S (clock_reads w) else clock_reads w).
Proof.
  intros Hb.
  unfold fetch_prometheus_data_request, build_url, log, console_log, issue,
    mbind, M_bind, mret, M_ret.
  match goal with |- context [build_search_params host q b ?w0] =>
    destruct (Hb w0) as (p & ps & w1 & Hps & Hreq);
    pose proof (build_search_params_clock host q b w0 _ _ Hps) as Hclk;
    pose proof (build_search_params_head host q b w0 _ _ Hps) as (ps' & Hhead) end.
  rewrite Hps. cbn [requests clock_reads] in Hreq, Hclk. cbn beta iota.
  cbn [requests clock_reads console]. rewrite Hreq, Hclk.
  injection Hhead as -> ->.
  destruct (toString_query_first (query q) ps') as (rest & Hrest & Hnil).
  exists (URL_toString (URL_set_search (URLSearchParams_toString (("query", query q) :: ps'))
                          (new_URL (base_url b)))), rest.
  eexists. split; [reflexivity |].
  split; [rewrite URL_toString_set_search, Hrest; reflexivity |].
  split; [| split; reflexivity].
  intros ->. apply Hnil. rewrite build_search_params_instant in Hps.
  injection Hps as <- _. reflexivity.
Qed.

(** X1: In instant mode a call never rejects, whatever the definition and
    whatever the network does: it issues exactly one request, to the instant
    endpoint with the encoded expression, does not read the clock, and
    fulfils with what was decoded from the outcome of that request. *)
Theorem instant_fetch_never_rejects host q w :
  exists w',
    fetch_prometheus_data host q false w
    = (Return (decoded (network host (length (requests w)) (instant_request_url q))), w')
    /\ requests w' = (requests w ++ [instant_request_url q])%list
    /\ clock_reads w' = clock_reads w.
Proof.
  destruct (request_frame host q false w (builds_instant host q))
    as (url & rest & w1 & Hreq & Hurl & Hrest & Hrs & Hclk).
  rewrite (Hrest eq_refl) in Hurl.
  assert (Hu : url = instant_request_url q).
  { rewrite Hurl, append_nil_r. reflexivity. }
  rewrite Hu in *.
  destruct (settle_returns (network host (length (requests w)) (instant_request_url q)) w1)
    as (w' & Hw' & Hrs' & Hclk').
  exists w'. split.
  - unfold fetch_prometheus_data, mbind, M_bind. rewrite Hreq. exact Hw'.
  - rewrite Hrs', Hclk', Hrs, Hclk. split; reflexivity.
Qed.

(** X2: In range mode, on a host with a valid clock and for a definition with a
    representable window, a call does not reject either: it reads the clock
    once, issues exactly one request, to the range endpoint, and fulfils
    with what was decoded from its outcome. *)
Theorem range_fetch_never_rejects host q w :
  clock_valid host -> zone_bounded host -> window_supported q ->
  exists url rest w',
    fetch_prometheus_data host q true w
    = (Return (decoded (network host (length (requests w)) url)), w')
    /\ url = "http://prometheus.flatironinstitute.org/api/v1/query_range?query="
             +:+ form_urlencode (query q) +:+ rest
    /\ requests w' = (requests w ++ [url])%list
    /\ clock_reads w' = S (clock_reads w).
Proof.
  intros Hclock Hzone Hq.
  destruct (request_frame host q true w (builds_range host q Hclock Hzone Hq))
    as (url & rest & w1 & Hreq & Hurl & _ & Hrs & Hclk).
  destruct (settle_returns (network host (length (requests w)) url) w1)
    as (w' & Hw' & Hrs' & Hclk').
  exists url, rest, w'. split.
  - unfold fetch_prometheus_data, mbind, M_bind. rewrite Hreq. exact Hw'.
  - split; [exact Hurl |]. rewrite Hrs', Hclk', Hrs, Hclk. split; reflexivity.
Qed.

Lemma range_fetch_never_rejects_witness :
  clock_valid healthy_host /\ zone_bounded healthy_host
  /\ window_supported seven_day_query
  /\ exists url rest w',
       fetch_prometheus_data healthy_host seven_day_query true initial_world
       = (Return (decoded (network healthy_host (length (requests initial_world)) url)), w')
       /\ url = "http://prometheus.flatironinstitute.org/api/v1/query_range?query="
                +:+ form_urlencode (query seven_day_query) +:+ rest
       /\ requests w' = (requests initial_world ++ [url])%list
       /\ clock_reads w' = S (clock_reads initial_world).
Proof.
  split; [apply sample_clock_valid |]. split; [apply sample_zone_bounded |].
  split; [apply seven_day_window_supported |].
  apply (range_fetch_never_rejects healthy_host seven_day_query initial_world).
  - apply sample_clock_valid.
  - apply sample_zone_bounded.
  - apply seven_day_window_supported.
Defined.

Lemma request_without_offset host q w :
  is_day q = true -> range_offset q = None ->
  exists w',
    fetch_prometheus_data_request host q true w
    = (Throw (RangeError "Invalid time value"), w')
    /\ requests w' = requests w.
Proof.
  intros Hday Hoff.
  unfold fetch_prometheus_data_request, build_url,
    build_search_params, log, console_log, issue, new_Date, lift,
    mbind, M_bind, mret, M_ret.
  cbn [fst snd clock_reads requests console]. rewrite Hday, Hoff.
  eexists. split; reflexivity.
Qed.

(** X3: A definition in days that gives no [range_offset] makes the call throw
    a [RangeError] while the URL is built: the promise of the call rejects,
    outside the reach of the [.catch] handler, and no request is issued. *)
Theorem day_without_offset_rejects host q w :
  range_unit q = Some "day" -> range_offset q = None ->
  exists w',
    fetch_prometheus_data host q true w = (Throw (RangeError "Invalid time value"), w')
    /\ requests w' = requests w.
Proof.
  intros Hunit Hoff.
  assert (Hday : is_day q = true) by (unfold is_day; rewrite Hunit; reflexivity).
  destruct (request_without_offset host q w Hday Hoff) as (w' & Hreq & Hrs).
  exists w'. split; [| exact Hrs].
  unfold fetch_prometheus_data, mbind, M_bind. rewrite Hreq. reflexivity.
Qed.

Lemma day_without_offset_rejects_witness :
  range_unit offsetless_query = Some "day" /\ range_offset offsetless_query = None
  /\ exists w',
       fetch_prometheus_data healthy_host offsetless_query true initial_world
       = (Throw (RangeError "Invalid time value"), w')
       /\ requests w' = requests initial_world.
Proof.
  split; [reflexivity |]. split; [reflexivity |].
  apply (day_without_offset_rejects healthy_host offsetless_query initial_world);
    reflexivity.
Defined.

(** X4: A definition in days that gives no [range_step] is still sent: the URL
    carries the four parameters, and [step] is the text [undefined]. *)
Theorem day_without_step_sends_undefined host q k w :
  range_unit q = Some "day" -> range_offset q = Some k -> range_step q = None ->
  Z.abs (UTC (zone host) (LocalTime (zone host) (clock host (clock_reads w)) - k * msPerDay))
  <= maxTime ->
  exists url w' start_s end_s,
    build_url host q true w = (Return url, w')
    /\ parse_search <$> url_query url
       = Some [("query", query q); ("start", start_s); ("end", end_s);
               ("step", "undefined")].
Proof.
  intros Hunit Hk Hstep Hvalid.
  assert (Hday : is_day q = true) by (unfold is_day; rewrite Hunit; reflexivity).
  destruct (build_search_params_day host q k
              (mkWorld (clock_reads w) (requests w)
                 (console w ++ [[ArgString chart; ArgString "Fetching data";
                                 ArgQuery q; ArgBool true]])) Hday Hk Hvalid)
    as (start_s & end_s & _ & _ & Hps).
  destruct (build_url_of_params host q true w _ _ _ Hps)
    as (url & w' & Hurl & _ & _ & Hparse).
  exists url, w', start_s, end_s. split; [exact Hurl |].
  rewrite Hparse. unfold step_string. rewrite Hstep. reflexivity.
Qed.

Lemma day_without_step_sends_undefined_witness :
  range_unit stepless_query = Some "day" /\ range_offset stepless_query = Some 1
  /\ range_step stepless_query = None
  /\ Z.abs (UTC (zone healthy_host)
              (LocalTime (zone healthy_host)
                 (clock healthy_host (clock_reads initial_world)) - 1 * msPerDay))
     <= maxTime
  /\ exists url w' start_s end_s,
       build_url healthy_host stepless_query true initial_world = (Return url, w')
       /\ parse_search <$> url_query url
          = Some [("query", query stepless_query); ("start", start_s); ("end", end_s);
                  ("step", "undefined")].
Proof.
  split; [reflexivity |]. split; [reflexivity |]. split; [reflexivity |].
  split; [vm_compute; discriminate |].
  apply (day_without_step_sends_undefined healthy_host stepless_query 1 initial_world);
    [reflexivity | reflexivity | reflexivity | vm_compute; discriminate].
Defined.

(** X5: Data is never made up: when a call fulfils with a value other than
    [undefined], the request was answered with an [ok] status and a body
    that parsed, whose [status] is exactly ["success"], and the value is its
    [data.result]. *)
Theorem defined_result_is_data_result o v :
  decoded o = v -> v <> JUndefined ->
  exists r body data,
    o = Responded r /\ response_ok r = true /\ json r = Return body
    /\ get body "status" = Return (JStr "success")
    /\ get body "data" = Return data
    /\ get data "result" = Return v.
Proof.
  unfold decoded, d3_json. intros Hv Hdef.
  destruct o as [e | r]; cbn [and_then] in Hv; [congruence |].
  destruct (response_ok r) eqn:Hok; cbn [negb and_then] in Hv; [| congruence].
  destruct ((status r =? 204) || (status r =? 205)).
  { cbn in Hv. congruence. }
  destruct (json r) as [e | body] eqn:Hjson; cbn [and_then] in Hv; [congruence |].
  unfold on_body in Hv.
  destruct (get body "status") as [e | st] eqn:Hst; cbn [and_then] in Hv; [congruence |].
  destruct (strict_eq_string st "success") eqn:Heq.
  - destruct st; try discriminate Heq. cbn [strict_eq_string] in Heq.
    apply String.eqb_eq in Heq. subst s.
    destruct (get body "data") as [e | data] eqn:Hdata; cbn [and_then] in Hv; [congruence |].
    destruct (get data "result") as [e | res] eqn:Hres; [congruence |].
    exists r, body, data. subst v. repeat split; assumption || reflexivity.
  - destruct (get body "error") as [e | err]; cbn [and_then] in Hv; [congruence |].
    destruct (ToString err); cbn [and_then] in Hv; congruence.
Qed.

Lemma defined_result_is_data_result_witness :
  decoded (answer success_envelope) = JArr [sample_series]
  /\ JArr [sample_series] <> JUndefined
  /\ exists r body data,
       answer success_envelope = Responded r /\ response_ok r = true
       /\ json r = Return body
       /\ get body "status" = Return (JStr "success")
       /\ get body "data" = Return data
       /\ get data "result" = Return (JArr [sample_series]).
Proof.
  split; [reflexivity |]. split; [discriminate |].
  apply (defined_result_is_data_result (answer success_envelope) (JArr [sample_series]));
    [reflexivity | discriminate].
Defined.

Lemma unusable_throws o : Unusable o -> exists e, and_then (d3_json o) on_body = Throw e.
Proof.
  intros [e | r Hok | r Hst | r e Hjson | r body Hjson Hst]; unfold d3_json.
  - eexists. reflexivity.
  - rewrite Hok. eexists. reflexivity.
  - destruct (response_ok r); [| eexists; reflexivity]. cbn [negb].
    destruct Hst as [-> | ->]; cbn; eexists; reflexivity.
  - destruct (response_ok r); [| eexists; reflexivity]. cbn [negb].
    destruct ((status r =? 204) || (status r =? 205)); [cbn; eexists; reflexivity |].
    rewrite Hjson. eexists. reflexivity.
  - destruct (response_ok r); [| eexists; reflexivity]. cbn [negb].
    destruct ((status r =? 204) || (status r =? 205)); [cbn; eexists; reflexivity |].
    rewrite Hjson. cbn [and_then]. unfold on_body.
    destruct (get body "status") as [e | st] eqn:E; [eexists; reflexivity |].
    cbn [and_then].
    destruct (strict_eq_string st "success") eqn:Heq.
    + destruct st; try discriminate Heq. cbn [strict_eq_string] in Heq.
      apply String.eqb_eq in Heq. subst s. contradiction.
    + destruct (get body "error") as [e | err]; [eexists; reflexivity |].
      cbn [and_then]. destruct (ToString err); eexists; reflexivity.
Qed.

(** X6: Every way a request can fail comes to the same: no connection, a status
    outside 200-299 whatever the body, an empty response, a body that does
    not parse, or an envelope whose [status] is not ["success"] all make the
    call fulfil with [undefined]; it does not reject. *)
Theorem unusable_outcome_gives_undefined o w :
  Unusable o ->
  exists w', fetch_prometheus_data_settle o w = (Return JUndefined, w').
Proof.
  intros Hu. destruct (unusable_throws o Hu) as (e & He).
  unfold fetch_prometheus_data_settle. rewrite He.
  eexists. reflexivity.
Qed.

Lemma unusable_outcome_gives_undefined_witness :
  Unusable (Responded (mkResponse 500 "Internal Server Error" (Return success_envelope)))
  /\ exists w',
       fetch_prometheus_data_settle
         (Responded (mkResponse 500 "Internal Server Error" (Return success_envelope)))
         initial_world
       = (Return JUndefined, w').
Proof.
  split; [apply unusable_status; reflexivity |].
  apply (unusable_outcome_gives_undefined
           (Responded (mkResponse 500 "Internal Server Error" (Return success_envelope)))
           initial_world).
  apply unusable_status. reflexivity.
Defined.

(** X7: The console after a failed request shows one more line, an [Error]
    without message: neither the status line nor the message of the service
    nor the cause of the failure is in it.  Handling the answer issues no
    request and does not read the clock. *)
Theorem failure_log_has_no_message o w :
  Unusable o ->
  console (snd (fetch_prometheus_data_settle o w))
  = (console w ++ [[ArgError (Error EmptyString)]])%list
  /\ requests (snd (fetch_prometheus_data_settle o w)) = requests w
  /\ clock_reads (snd (fetch_prometheus_data_settle o w)) = clock_reads w.
Proof.
  intros Hu. destruct (unusable_throws o Hu) as (e & He).
  unfold fetch_prometheus_data_settle. rewrite He.
  split; [reflexivity |]. split; reflexivity.
Qed.

Lemma failure_log_has_no_message_witness :
  Unusable (answer (error_envelope "bad query"))
  /\ console (snd (fetch_prometheus_data_settle (answer (error_envelope "bad query"))
                     initial_world))
     = (console initial_world ++ [[ArgError (Error EmptyString)]])%list
  /\ requests (snd (fetch_prometheus_data_settle (answer (error_envelope "bad query"))
                      initial_world)) = requests initial_world
  /\ clock_reads (snd (fetch_prometheus_data_settle (answer (error_envelope "bad query"))
                         initial_world)) = clock_reads initial_world.
Proof.
  assert (Hu : Unusable (answer (error_envelope "bad query"))).
  { apply (unusable_envelope _ (error_envelope "bad query")); [reflexivity | discriminate]. }
  split; [exact Hu |].
  apply (failure_log_has_no_message (answer (error_envelope "bad query")) initial_world Hu).
Defined.

(** ** The fan-out for any order of arrival *)

Lemma unfilled_replicate {A : Type} n : unfilled (replicate n (@None A)) = n.
Proof. induction n as [| n IH]; cbn; [reflexivity | rewrite IH; reflexivity]. Qed.

Lemma unfilled_insert {A : Type} (vs : list (option A)) i v :
  vs !! i = Some None -> unfilled vs = S (unfilled (<[i := Some v]> vs)).
Proof.
  revert i. induction vs as [| x vs IH]; intros i Hi; [discriminate |].
  destruct i as [| i]; cbn in Hi.
  - injection Hi as ->. reflexivity.
  - cbn. destruct x; rewrite (IH i Hi); reflexivity.
Qed.

Lemma unfilled_zero {A : Type} (vs : list (option A)) :
  unfilled vs = O <-> forall i, vs !! i <> Some None.
Proof.
  split.
  - induction vs as [| x vs IH]; intros Hz i Hi; [discriminate |].
    destruct x as [a |]; [| discriminate Hz].
    destruct i as [| i]; [discriminate Hi |]. exact (IH Hz i Hi).
  - induction vs as [| x vs IH]; intros Hall; [reflexivity |].
    destruct x as [a |]; cbn.
    + apply IH. intros i. exact (Hall (S i)).
    + exfalso. exact (Hall O eq_refl).
Qed.

Lemma all_init_inv_any (entries : list AggregatedEntry) :
  all_inv_any entries [] (all_init (length entries)).
Proof.
  unfold all_inv_any, all_init. cbn [slots remaining outcome].
  split; [apply length_replicate |].
  split.
  - intros i e He. apply lookup_lt_Some in He. split.
    + intros Hin. apply elem_of_nil in Hin. destruct Hin.
    + intros _. apply lookup_replicate_2. exact He.
  - split; [rewrite unfilled_replicate; reflexivity |].
    destruct entries; reflexivity.
Qed.

Lemma all_inv_any_outcome entries settled st :
  all_inv_any entries settled st ->
  ((forall i, (i < length entries)%nat -> i ∈ settled) ->
     outcome st = Some (Return entries))
  /\ (forall i, (i < length entries)%nat -> i ∉ settled -> outcome st = None).
Proof.
  intros (Hlen & Hslots & Hrem & Hout). split.
  - intros Hall. rewrite Hout, Hrem.
    replace (unfilled (slots st)) with O; [reflexivity |].
    symmetry. apply unfilled_zero. intros i Hi.
    assert (Hlt : (i < length entries)%nat)
      by (rewrite <- Hlen; apply lookup_lt_Some in Hi; exact Hi).
    destruct (lookup_lt_is_Some_2 entries i Hlt) as [e He].
    destruct (Hslots i e He) as [Hin _]. rewrite (Hin (Hall i Hlt)) in Hi. discriminate.
  - intros i Hlt Hnin. rewrite Hout, Hrem.
    destruct (lookup_lt_is_Some_2 entries i Hlt) as [e He].
    destruct (Hslots i e He) as [_ Hout']. specialize (Hout' Hnin).
    destruct (unfilled (slots st)) eqn:E; [| reflexivity].
    exfalso. exact (proj1 (unfilled_zero _) E i Hout').
Qed.

Section AnySchedule.
Variable host : Host.

Lemma settle_task_any (tasks : list Task) i settled st w :
  (forall t, t ∈ tasks -> exists r, task_request t = Return r) ->
  all_inv_any (entry_of_task host <$> tasks) settled st ->
  exists st' w',
    settle_task host tasks i st w = (Return st', w')
    /\ requests w' = requests w /\ clock_reads w' = clock_reads w
    /\ all_inv_any (entry_of_task host <$> tasks) (i :: settled) st'.
Proof.
  intros Hissued Hinv.
  pose proof Hinv as (Hlen & Hslots & Hrem & Hout).
  unfold settle_task.
  destruct (tasks !! i) as [t |] eqn:Ht.
  2: { exists st, w. split; [reflexivity |]. split; [reflexivity |]. split; [reflexivity |].
       split; [exact Hlen |]. split; [| split; assumption].
       intros j e He.
       assert (Hne : j <> i).
       { intros ->. rewrite list_lookup_fmap, Ht in He. discriminate. }
       destruct (Hslots j e He) as [Hin Hnin]. split.
       - intros [-> | H]%elem_of_cons; [contradiction | exact (Hin H)].
       - intros H. apply Hnin. intros H'. apply H. right. exact H'. }
  destruct (Hissued t (list_elem_of_lookup_2 _ _ _ Ht)) as [r Hr]. rewrite Hr.
  assert (He : (entry_of_task host <$> tasks) !! i = Some (entry_of_task host t))
    by (rewrite list_lookup_fmap, Ht; reflexivity).
  destruct (Hslots i _ He) as [Hin Hnin].
  destruct (decide (i ∈ settled)) as [Hi | Hi].
  - rewrite (Hin Hi).
    exists st, w. split; [reflexivity |]. split; [reflexivity |]. split; [reflexivity |].
    split; [exact Hlen |]. split; [| split; assumption].
    intros j e Hj. destruct (Hslots j e Hj) as [Hjin Hjnin]. split.
    + intros [-> | H]%elem_of_cons; [exact (Hjin Hi) | exact (Hjin H)].
    + intros H. apply Hjnin. intros H'. apply H. right. exact H'.
  - rewrite (Hnin Hi).
    destruct (settle_returns (network host (fst r) (snd r)) w) as (w' & Hw' & Hrs & Hclk).
    exists (all_resolve i (entry_of_task host t) st), w'.
    split.
    { unfold mbind, M_bind. rewrite Hw'. unfold entry_of_task. rewrite Hr. reflexivity. }
    split; [exact Hrs |]. split; [exact Hclk |].
    unfold all_resolve. rewrite (Hnin Hi).
    assert (Hilt : (i < length (slots st))%nat)
      by (apply lookup_lt_Some in Ht; rewrite Hlen, length_fmap; exact Ht).
    assert (Hnew : forall j e, (entry_of_task host <$> tasks) !! j = Some e ->
               (j ∈ i :: settled ->
                  <[i := Some (entry_of_task host t)]> (slots st) !! j = Some (Some e))
               /\ (j ∉ i :: settled ->
                     <[i := Some (entry_of_task host t)]> (slots st) !! j = Some None)).
    { intros j e Hj. destruct (decide (i = j)) as [<- | Hne].
      - split.
        + intros _. rewrite list_lookup_insert_eq by exact Hilt. congruence.
        + intros H. exfalso. apply H. left.
      - rewrite list_lookup_insert_ne by exact Hne.
        destruct (Hslots j e Hj) as [Hjin Hjnin]. split.
        + intros [-> | H]%elem_of_cons; [contradiction | exact (Hjin H)].
        + intros H. apply Hjnin. intros H'. apply H. right. exact H'. }
    pose proof (unfilled_insert (slots st) i (entry_of_task host t) (Hnin Hi)) as Hcount.
    split; [cbn [slots]; rewrite length_insert; exact Hlen |].
    split; [exact Hnew |].
    cbn [slots remaining outcome].
    split; [rewrite Hrem, Hcount; reflexivity |].
    rewrite Hout, Hrem, Hcount. cbn [Nat.pred].
    destruct (unfilled (<[i := Some (entry_of_task host t)]> (slots st))) eqn:E;
      [| reflexivity].
    f_equal. f_equal. apply all_values_filled.
    + rewrite length_insert. exact Hlen.
    + intros j e Hj. destruct (Hnew j e Hj) as [Hjin Hjnin].
      destruct (decide (j ∈ i :: settled)) as [H | H]; [exact (Hjin H) |].
      exfalso. exact (proj1 (unfilled_zero _) E j (Hjnin H)).
Qed.

Lemma settle_all_any (tasks : list Task) schedule settled st w :
  (forall t, t ∈ tasks -> exists r, task_request t = Return r) ->
  all_inv_any (entry_of_task host <$> tasks) settled st ->
  exists st' w',
    settle_all host tasks schedule st w = (Return st', w')
    /\ requests w' = requests w /\ clock_reads w' = clock_reads w
    /\ all_inv_any (entry_of_task host <$> tasks) (rev schedule ++ settled) st'.
Proof.
  intros Hissued. revert settled st w.
  induction schedule as [| i rest IH]; intros settled st w Hinv.
  - exists st, w. split; [reflexivity |]. split; [reflexivity |].
    split; [reflexivity | exact Hinv].
  - destruct (settle_task_any tasks i settled st w Hissued Hinv)
      as (st1 & w1 & Hstep & Hrs1 & Hclk1 & Hinv1).
    destruct (IH (i :: settled) st1 w1 Hinv1) as (st' & w' & Hrest & Hrs & Hclk & Hinv').
    exists st', w'. split.
    { cbn [settle_all]. unfold mbind, M_bind. rewrite Hstep. exact Hrest. }
    split; [congruence |]. split; [congruence |].
    cbn [rev]. rewrite <- app_assoc. exact Hinv'.
Qed.

End AnySchedule.

Lemma elem_of_rev (i : nat) (l : list nat) : i ∈ rev l <-> i ∈ l.
Proof. rewrite !list_elem_of_In. symmetry. apply in_rev. Qed.

Lemma instant_urls qs urls :
  Forall2 (request_url_shape false) qs urls -> urls = instant_request_url <$> qs.
Proof.
  induction 1 as [| q u qs urls (rest & Hu & Hrest) _ IH]; [reflexivity |].
  cbn. rewrite IH. f_equal. rewrite Hu, (Hrest eq_refl), append_nil_r. reflexivity.
Qed.

Section FanOutAny.
Variable host : Host.

(** The synchronous part of a [map]: one task and one request per
    definition, in the order of the definitions, and one reading of the
    clock per definition in range mode. *)
Lemma start_all_frame qs b w :
  (forall q, q ∈ qs -> builds host q b) ->
  exists ts w' urls,
    start_all host qs b w = (Return ts, w')
    /\ task_query <$> ts = qs
    /\ (forall i t, ts !! i = Some t ->
          exists url, task_request t = Return ((length (requests w) + i)%nat, url))
    /\ requests w' = (requests w ++ urls)%list
    /\ Forall2 (request_url_shape b) qs urls
    /\ clock_reads w' = (clock_reads w + (if b then length qs else 0))%nat.
Proof.
  revert w. induction qs as [| q qs IH]; intros w Hb.
  - exists [], w, []. split; [reflexivity |]. split; [reflexivity |].
    split; [intros i t Hi; discriminate |].
    split; [rewrite app_nil_r; reflexivity |].
    split; [constructor |]. destruct b; cbn; lia.
  - destruct (request_frame host q b w) as (url & rest & w1 & Hreq & Hurl & Hrest & Hrs & Hclk);
      [apply Hb; left |].
    destruct (IH w1) as (ts & w' & urls & Hts & Hq & Hnum & Hrs' & Hshape & Hclk');
      [intros q' Hq'; apply Hb; right; exact Hq' |].
    exists (mkTask q (Return (length (requests w), url)) :: ts), w', (url :: urls).
    split.
    { cbn [start_all]. unfold mbind, M_bind, attempt. rewrite Hreq. cbn [fst snd].
      rewrite Hts. reflexivity. }
    split; [cbn; rewrite Hq; reflexivity |].
    split.
    { intros [| i] t Hi.
      - injection Hi as <-. exists url. cbn. f_equal. f_equal. lia.
      - cbn in Hi. destruct (Hnum i t Hi) as (u & Hu). exists u. rewrite Hu.
        rewrite Hrs, length_app. cbn. f_equal. f_equal. lia. }
    split; [rewrite Hrs', Hrs, <- app_assoc; reflexivity |].
    split; [constructor; [exists rest; split; assumption | exact Hshape] |].
    rewrite Hclk', Hclk. destruct b; cbn; lia.
Qed.

(** The fan-out for any order of arrival, with repetitions and foreign
    positions allowed: the requests and the entries are fixed by the
    catalogue and the host; the order only decides whether the promise has
    fulfilled yet. *)
Lemma fan_out_any qs rqs w :
  (forall q, q ∈ qs -> builds host q false) ->
  (forall q, q ∈ rqs -> builds host q true) ->
  exists es urls,
    entry_query <$> es = (qs ++ rqs)%list
    /\ (forall i e, es !! i = Some e ->
          exists url,
            entry_data e = decoded (network host (length (requests w) + i)%nat url))
    /\ Forall2 (request_url_shape true) rqs urls
    /\ forall schedule, exists r w',
         fetch_all_with host qs rqs schedule w = (Return r, w')
         /\ requests w' = (requests w ++ (instant_request_url <$> qs) ++ urls)%list
         /\ clock_reads w' = (clock_reads w + length rqs)%nat
         /\ (covers (length qs + length rqs) schedule -> r = Some (Return es))
         /\ (forall i, (i < length qs + length rqs)%nat -> i ∉ schedule -> r = None).
Proof.
  intros Hqs Hrqs.
  destruct (start_all_frame qs false w Hqs)
    as (ts1 & w1 & urls1 & H1 & Hq1 & Hnum1 & Hrs1 & Hshape1 & Hclk1).
  destruct (start_all_frame rqs true w1 Hrqs)
    as (ts2 & w2 & urls2 & H2 & Hq2 & Hnum2 & Hrs2 & Hshape2 & Hclk2).
  apply instant_urls in Hshape1. subst urls1.
  assert (Hl1 : length ts1 = length qs) by (rewrite <- Hq1, length_fmap; reflexivity).
  assert (Hl2 : length ts2 = length rqs) by (rewrite <- Hq2, length_fmap; reflexivity).
  assert (Hissued : forall i t, (ts1 ++ ts2)%list !! i = Some t ->
            exists url, task_request t = Return ((length (requests w) + i)%nat, url)).
  { intros i t Hi. apply lookup_app_Some in Hi as [Hi | [Hge Hi]].
    - apply Hnum1. exact Hi.
    - destruct (Hnum2 _ _ Hi) as (url & Hu). exists url. rewrite Hu.
      rewrite Hrs1, length_app, length_fmap. f_equal. f_equal. lia. }
  assert (Hissued' : forall t, t ∈ (ts1 ++ ts2)%list -> exists r, task_request t = Return r).
  { intros t [i Hi]%list_elem_of_lookup_1. destruct (Hissued i t Hi) as (url & Hu). eauto. }
  set (es := entry_of_task host <$> (ts1 ++ ts2)%list).
  assert (Hlen : length es = (length qs + length rqs)%nat)
    by (unfold es; rewrite length_fmap, length_app, Hl1, Hl2; reflexivity).
  exists es, urls2.
  split; [unfold es; rewrite <- list_fmap_compose, fmap_app, <- Hq1, <- Hq2; reflexivity |].
  split.
  { intros i e Hi. unfold es in Hi. rewrite list_lookup_fmap in Hi.
    destruct ((ts1 ++ ts2)%list !! i) as [t |] eqn:Ht; [| discriminate].
    injection Hi as <-. destruct (Hissued i t Ht) as (url & Hu).
    exists url. unfold entry_of_task. rewrite Hu. reflexivity. }
  split; [exact Hshape2 |].
  intros schedule.
  pose proof (all_init_inv_any es) as Hinit. unfold es in Hinit at 2.
  rewrite length_fmap in Hinit.
  destruct (settle_all_any host (ts1 ++ ts2)%list schedule [] _ w2 Hissued' Hinit)
    as (st & w' & Hst & Hrs & Hclk & Hinv).
  exists (outcome st), w'.
  split; [unfold fetch_all_with, mbind, M_bind; rewrite H1, H2, Hst; reflexivity |].
  split; [rewrite Hrs, Hrs2, Hrs1, <- app_assoc; reflexivity |].
  split; [rewrite Hclk, Hclk2, Hclk1; lia |].
  destruct (all_inv_any_outcome _ _ _ Hinv) as [Hfull Hpart].
  fold es in Hfull, Hpart. rewrite Hlen in Hfull, Hpart.
  split.
  - intros Hcov. apply Hfull. intros i Hi.
    rewrite app_nil_r. apply elem_of_rev. apply Hcov. exact Hi.
  - intros i Hi Hnin. apply (Hpart i Hi).
    rewrite app_nil_r. intros H. apply Hnin. apply elem_of_rev. exact H.
Qed.

End FanOutAny.

Lemma covers_or_misses n schedule :
  covers n schedule \/ exists i, (i < n)%nat /\ i ∉ schedule.
Proof.
  induction n as [| n IH].
  - left. intros i Hi. lia.
  - destruct IH as [Hcov | (i & Hi & Hnin)].
    + destruct (decide (n ∈ schedule)) as [Hn | Hn].
      * left. intros i Hi. destruct (decide (i = n)) as [-> | Hne]; [exact Hn |].
        apply Hcov. lia.
      * right. exists n. split; [lia | exact Hn].
    + right. exists i. split; [lia | exact Hnin].
Qed.

Lemma supported_builds host (qs rqs : list QueryObject) :
  clock_valid host -> zone_bounded host -> Forall window_supported rqs ->
  (forall q, q ∈ qs -> builds host q false)
  /\ (forall q, q ∈ rqs -> builds host q true).
Proof.
  intros Hclock Hzone Hrqs. split.
  - intros q _. apply builds_instant.
  - intros q Hq. apply builds_range; [exact Hclock | exact Hzone |].
    rewrite Forall_forall in Hrqs. apply Hrqs. exact Hq.
Qed.

(** X8: The fan-out does not wait: whatever answers arrive, in whatever order,
    or none at all, exactly one request per definition is issued, in the
    order of the catalogue, the instant ones to the instant endpoint and
    then the range ones to the range endpoint, and the clock is read once
    per range definition. *)
Theorem requests_leave_before_any_answer host qs rqs schedule :
  clock_valid host -> zone_bounded host -> Forall window_supported rqs ->
  exists r w' range_urls,
    fetch_all_with host qs rqs schedule initial_world = (Return r, w')
    /\ requests w' = ((instant_request_url <$> qs) ++ range_urls)%list
    /\ Forall2 (request_url_shape true) rqs range_urls
    /\ clock_reads w' = length rqs.
Proof.
  intros Hclock Hzone Hrqs.
  destruct (supported_builds host qs rqs Hclock Hzone Hrqs) as [Hb1 Hb2].
  destruct (fan_out_any host qs rqs initial_world Hb1 Hb2)
    as (es & urls & _ & _ & Hshape & Hrun).
  destruct (Hrun schedule) as (r & w' & Hr & Hrs & Hclk & _).
  exists r, w', urls. split; [exact Hr |]. split; [exact Hrs |].
  split; [exact Hshape | exact Hclk].
Qed.

Lemma requests_leave_before_any_answer_witness :
  clock_valid unreachable_host /\ zone_bounded unreachable_host
  /\ Forall window_supported range_queries
  /\ exists r w' range_urls,
       fetch_all_with unreachable_host queries range_queries [] initial_world
       = (Return r, w')
       /\ requests w' = ((instant_request_url <$> queries) ++ range_urls)%list
       /\ Forall2 (request_url_shape true) range_queries range_urls
       /\ clock_reads w' = length range_queries.
Proof.
  split; [apply sample_clock_valid |]. split; [apply sample_zone_bounded |].
  split; [apply catalogue_windows_supported |].
  apply (requests_leave_before_any_answer unreachable_host queries range_queries []).
  - apply sample_clock_valid.
  - apply sample_zone_bounded.
  - apply catalogue_windows_supported.
Defined.

(** X9: The promise of the fan-out fulfils exactly when every position has
    settled: while one request has not completed it stays pending, however
    many others have; positions that come twice or that do not exist change
    nothing. *)
Theorem fulfils_exactly_when_all_settled host qs rqs schedule :
  clock_valid host -> zone_bounded host -> Forall window_supported rqs ->
  (covers (length qs + length rqs) schedule ->
     exists es, run (fetch_all_with host qs rqs schedule) = Return (Some (Return es))
                /\ entry_query <$> es = (qs ++ rqs)%list)
  /\ (forall i, (i < length qs + length rqs)%nat -> i ∉ schedule ->
        run (fetch_all_with host qs rqs schedule) = Return None).
Proof.
  intros Hclock Hzone Hrqs.
  destruct (supported_builds host qs rqs Hclock Hzone Hrqs) as [Hb1 Hb2].
  destruct (fan_out_any host qs rqs initial_world Hb1 Hb2)
    as (es & urls & Hq & _ & _ & Hrun).
  destruct (Hrun schedule) as (r & w' & Hr & _ & _ & Hfull & Hpart).
  unfold run. rewrite Hr. cbn [fst]. split.
  - intros Hcov. exists es. rewrite (Hfull Hcov). split; [reflexivity | exact Hq].
  - intros i Hi Hnin. rewrite (Hpart i Hi Hnin). reflexivity.
Qed.

Lemma nine_with_repeats_covers : covers 9 [8; 3; 3; 2; 1; 0; 7; 40; 6; 5; 4; 8]%nat.
Proof.
  intros i Hi.
  do 9 (destruct i as [| i]; [repeat constructor |]). lia.
Defined.

Lemma fulfils_exactly_when_all_settled_witness :
  clock_valid unreachable_host /\ zone_bounded unreachable_host
  /\ Forall window_supported range_queries
  /\ (covers (length queries + length range_queries)
             [8; 3; 3; 2; 1; 0; 7; 40; 6; 5; 4; 8]%nat ->
        exists es,
          run (fetch_all_with unreachable_host queries range_queries
                 [8; 3; 3; 2; 1; 0; 7; 40; 6; 5; 4; 8]%nat)
          = Return (Some (Return es))
          /\ entry_query <$> es = (queries ++ range_queries)%list)
  /\ (forall i, (i < length queries + length range_queries)%nat ->
        i ∉ [8; 3; 3; 2; 1; 0; 7; 40; 6; 5; 4; 8]%nat ->
        run (fetch_all_with unreachable_host queries range_queries
               [8; 3; 3; 2; 1; 0; 7; 40; 6; 5; 4; 8]%nat) = Return None).
Proof.
  split; [apply sample_clock_valid |]. split; [apply sample_zone_bounded |].
  split; [apply catalogue_windows_supported |].
  apply (fulfils_exactly_when_all_settled unreachable_host queries range_queries
           [8; 3; 3; 2; 1; 0; 7; 40; 6; 5; 4; 8]%nat).
  - apply sample_clock_valid.
  - apply sample_zone_bounded.
  - apply catalogue_windows_supported.
Defined.

(** X10: [data_loaded_signal] becomes true exactly when all nine requests have
    completed: until then [data_signal] keeps its initial empty value, and
    nothing else (no failure of a request) keeps it from becoming true. *)
Theorem loaded_exactly_when_all_settled host schedule :
  clock_valid host -> zone_bounded host ->
  exists data_signal,
    run (App_effect host schedule) = Return data_signal
    /\ (data_loaded_signal data_signal = true <-> covers 9 schedule).
Proof.
  intros Hclock Hzone.
  destruct (catalogue_builds host Hclock Hzone) as [Hb1 Hb2].
  unfold run, App_effect, log, console_log, mbind, M_bind. cbn beta iota.
  unfold fetch_all_prometheus_data.
  match goal with |- context [fetch_all_with host queries range_queries schedule ?w0] =>
    destruct (fan_out_any host queries range_queries w0 Hb1 Hb2)
      as (es & urls & Hq & _ & _ & Hrun) end.
  destruct (Hrun schedule) as (r & w' & Hr & _ & _ & Hfull & Hpart).
  rewrite Hr. cbn beta iota.
  assert (Hlen : length es = 9%nat)
    by (rewrite <- (length_fmap entry_query), Hq; reflexivity).
  destruct (covers_or_misses 9 schedule) as [Hcov | (i & Hi & Hnin)].
  - rewrite (Hfull Hcov). cbn beta iota. exists es. split; [reflexivity |].
    unfold data_loaded_signal. rewrite Hlen. split; [intros _; exact Hcov | reflexivity].
  - rewrite (Hpart i Hi Hnin). exists []. split; [reflexivity |].
    split; [discriminate |]. intros Hcov. exfalso. exact (Hnin (Hcov i Hi)).
Qed.

Lemma loaded_exactly_when_all_settled_witness :
  clock_valid unreachable_host /\ zone_bounded unreachable_host
  /\ exists data_signal,
       run (App_effect unreachable_host [0; 1; 2; 3; 4; 5; 6; 7]%nat) = Return data_signal
       /\ (data_loaded_signal data_signal = true
           <-> covers 9 [0; 1; 2; 3; 4; 5; 6; 7]%nat).
Proof.
  split; [apply sample_clock_valid |]. split; [apply sample_zone_bounded |].
  apply (loaded_exactly_when_all_settled unreachable_host [0; 1; 2; 3; 4; 5; 6; 7]%nat).
  - apply sample_clock_valid.
  - apply sample_zone_bounded.
Defined.

(** X11: Each entry depends on its own request only: when the network answers
    the request number [i] with [outs i], the fan-out fulfils with the
    catalogue in order, the entry at position [i] holding what was decoded
    from [outs i], whatever became of the other requests. *)
Theorem entry_holds_outcome_of_its_request host qs rqs schedule outs :
  clock_valid host -> zone_bounded host -> Forall window_supported rqs ->
  covers (length qs + length rqs) schedule ->
  (forall i url, network host i url = outs i) ->
  run (fetch_all_with host qs rqs schedule)
  = Return (Some (Return (imap (fun i q => mkEntry q (decoded (outs i)))
                               (qs ++ rqs)%list))).
Proof.
  intros Hclock Hzone Hrqs Hcov Hnet.
  destruct (supported_builds host qs rqs Hclock Hzone Hrqs) as [Hb1 Hb2].
  destruct (fan_out_any host qs rqs initial_world Hb1 Hb2)
    as (es & urls & Hq & Hdata & _ & Hrun).
  destruct (Hrun schedule) as (r & w' & Hr & _ & _ & Hfull & _).
  unfold run. rewrite Hr, (Hfull Hcov). cbn [fst]. do 3 f_equal.
  apply list_eq. intros i. rewrite list_lookup_imap, <- Hq, list_lookup_fmap.
  destruct (es !! i) as [e |] eqn:He; [| reflexivity].
  cbn. f_equal. destruct (Hdata i e He) as (url & Hd).
  cbn [initial_world requests length Nat.add] in Hd. rewrite Hnet in Hd.
  destruct e as [q d]. cbn in *. rewrite Hd. reflexivity.
Qed.

Lemma scrambled_covers : covers 9 [8; 3; 2; 1; 0; 7; 6; 5; 4]%nat.
Proof.
  intros i Hi.
  do 9 (destruct i as [| i]; [repeat constructor |]). lia.
Defined.

Lemma entry_holds_outcome_of_its_request_witness :
  clock_valid (host_failing_at 2 "bad query")
  /\ zone_bounded (host_failing_at 2 "bad query")
  /\ Forall window_supported range_queries
  /\ covers (length queries + length range_queries) [8; 3; 2; 1; 0; 7; 6; 5; 4]%nat
  /\ (forall i url,
        network (host_failing_at 2 "bad query") i url
        = (fun n => if Nat.eqb n 2 then answer (error_envelope "bad query")
                    else answer success_envelope) i)
  /\ run (fetch_all_with (host_failing_at 2 "bad query") queries range_queries
            [8; 3; 2; 1; 0; 7; 6; 5; 4]%nat)
     = Return (Some (Return (imap (fun i q =>
                                     mkEntry q (decoded
                                       ((fun n => if Nat.eqb n 2
                                                  then answer (error_envelope "bad query")
                                                  else answer success_envelope) i)))
                                  (queries ++ range_queries)%list))).
Proof.
  split; [apply sample_clock_valid |]. split; [apply sample_zone_bounded |].
  split; [apply catalogue_windows_supported |].
  split; [apply scrambled_covers |].
  split; [reflexivity |].
  apply (entry_holds_outcome_of_its_request (host_failing_at 2 "bad query") queries
           range_queries [8; 3; 2; 1; 0; 7; 6; 5; 4]%nat
           (fun n => if Nat.eqb n 2 then answer (error_envelope "bad query")
                     else answer success_envelope)).
  - apply sample_clock_valid.
  - apply sample_zone_bounded.
  - apply catalogue_windows_supported.
  - apply scrambled_covers.
  - reflexivity.
Defined.

Section Rejection.
Variable host : Host.

(** A [map] always returns its tasks, one per definition, each holding how
    the synchronous part of its call completed. *)
Lemma start_all_total qs b w :
  exists ts w',
    start_all host qs b w = (Return ts, w')
    /\ length ts = length qs
    /\ forall i q, qs !! i = Some q ->
         exists wi, ts !! i
                    = Some (mkTask q (fst (fetch_prometheus_data_request host q b wi))).
Proof.
  revert w. induction qs as [| q qs IH]; intros w.
  - exists [], w. split; [reflexivity |]. split; [reflexivity |].
    intros i q Hi. discriminate.
  - destruct (IH (snd (fetch_prometheus_data_request host q b w)))
      as (ts & w' & Hts & Hlen & Hall).
    exists (mkTask q (fst (fetch_prometheus_data_request host q b w)) :: ts), w'.
    split.
    { cbn [start_all]. unfold mbind, M_bind, attempt. rewrite Hts. reflexivity. }
    split; [cbn; rewrite Hlen; reflexivity |].
    intros [| i] q' Hi.
    + injection Hi as <-. exists w. reflexivity.
    + cbn in Hi. exact (Hall i q' Hi).
Qed.

Lemma settle_task_reject (tasks : list Task) j tj ej i st w :
  tasks !! j = Some tj -> task_request tj = Throw ej ->
  reject_inv j st ->
  exists st' w',
    settle_task host tasks i st w = (Return st', w')
    /\ reject_inv j st'
    /\ (outcome st <> None -> outcome st' <> None)
    /\ (i = j -> outcome st' <> None).
Proof.
  intros Hj Hej (Hslot & Hrem & Hout).
  unfold settle_task.
  destruct (tasks !! i) as [t |] eqn:Ht.
  2: { exists st, w. split; [reflexivity |]. split; [split; [| split]; assumption |].
       split; [tauto |]. intros ->. congruence. }
  destruct (task_request t) as [e | r] eqn:Hr.
  - exists (all_reject e st), w. split; [reflexivity |].
    unfold all_reject, reject_inv. cbn [slots remaining outcome].
    split; [split; [exact Hslot | split; [exact Hrem |]] |].
    + intros es. destruct (outcome st); [apply Hout | discriminate].
    + split; [| intros _]; destruct (outcome st); try discriminate; tauto.
  - assert (Hne : i <> j) by (intros ->; congruence).
    destruct (slots st !! i) as [[x |] |] eqn:Hsi.
    + exists st, w. split; [reflexivity |]. split; [split; [| split]; assumption |].
      split; [tauto | contradiction].
    + destruct (settle_returns (network host (fst r) (snd r)) w) as (w' & Hw' & _).
      exists (all_resolve i (mkEntry (task_query t) (decoded (network host (fst r) (snd r)))) st), w'.
      split; [unfold mbind, M_bind; rewrite Hw'; reflexivity |].
      unfold all_resolve. rewrite Hsi. unfold reject_inv. cbn [slots remaining outcome].
      pose proof (unfilled_insert (slots st) i
                    (mkEntry (task_query t) (decoded (network host (fst r) (snd r)))) Hsi)
        as Hcount.
      assert (Hslot' : <[i := Some (mkEntry (task_query t)
                                      (decoded (network host (fst r) (snd r))))]>
                         (slots st) !! j = Some None)
        by (rewrite list_lookup_insert_ne by exact Hne; exact Hslot).
      rewrite Hrem, Hcount. cbn [Nat.pred].
      destruct (unfilled (<[i := _]> (slots st))) eqn:E.
      { exfalso. exact (proj1 (unfilled_zero _) E j Hslot'). }
      split; [split; [exact Hslot' | split; [reflexivity |]] |].
      * intros es. destruct (outcome st); [apply Hout | discriminate].
      * split; [| contradiction]. destruct (outcome st); [discriminate | tauto].
    + exists st, w. split; [reflexivity |]. split; [split; [| split]; assumption |].
      split; [tauto | contradiction].
Qed.

Lemma settle_all_reject (tasks : list Task) j tj ej schedule st w :
  tasks !! j = Some tj -> task_request tj = Throw ej ->
  reject_inv j st ->
  exists st' w',
    settle_all host tasks schedule st w = (Return st', w')
    /\ reject_inv j st'
    /\ (outcome st <> None \/ j ∈ schedule -> outcome st' <> None).
Proof.
  intros Hj Hej. revert st w.
  induction schedule as [| i rest IH]; intros st w Hinv.
  - exists st, w. split; [reflexivity |]. split; [exact Hinv |].
    intros [H | H]; [exact H |]. apply elem_of_nil in H. destruct H.
  - destruct (settle_task_reject tasks j tj ej i st w Hj Hej Hinv)
      as (st1 & w1 & Hstep & Hinv1 & Hkeep & Hhit).
    destruct (IH st1 w1 Hinv1) as (st' & w' & Hrest & Hinv' & Hfin).
    exists st', w'. split.
    { cbn [settle_all]. unfold mbind, M_bind. rewrite Hstep. exact Hrest. }
    split; [exact Hinv' |].
    intros [H | H]; apply Hfin.
    + left. exact (Hkeep H).
    + apply elem_of_cons in H as [<- | H]; [left; exact (Hhit eq_refl) | right; exact H].
Qed.

End Rejection.

(** X12: Isolation stops at the construction of the request: when the catalogue
    holds a definition in days without [range_offset], the promise of the
    fan-out rejects as soon as the promise of that definition has settled,
    whatever the host and whatever the answers to the other requests, and it
    never fulfils. *)
Theorem unbuildable_definition_rejects_all host qs rqs schedule j q :
  rqs !! j = Some q -> range_unit q = Some "day" -> range_offset q = None ->
  (length qs + j)%nat ∈ schedule ->
  exists e, run (fetch_all_with host qs rqs schedule) = Return (Some (Throw e)).
Proof.
  intros Hj Hunit Hoff Hin.
  assert (Hday : is_day q = true) by (unfold is_day; rewrite Hunit; reflexivity).
  destruct (start_all_total host qs false initial_world) as (ts1 & w1 & H1 & Hl1 & _).
  destruct (start_all_total host rqs true w1) as (ts2 & w2 & H2 & Hl2 & Hall2).
  destruct (Hall2 j q Hj) as (wj & Htj).
  destruct (request_without_offset host q wj Hday Hoff) as (wj' & Hreq & _).
  rewrite Hreq in Htj. cbn [fst] in Htj.
  assert (Htask : (ts1 ++ ts2)%list !! (length qs + j)%nat
                  = Some (mkTask q (Throw (RangeError "Invalid time value")))).
  { rewrite lookup_app_r by lia. rewrite Hl1.
    replace (length qs + j - length qs)%nat with j by lia. exact Htj. }
  assert (Hinit : reject_inv (length qs + j)
                    (all_init (A := AggregatedEntry) (length (ts1 ++ ts2)%list))).
  { apply lookup_lt_Some in Htask.
    unfold reject_inv, all_init. cbn [slots remaining outcome].
    split; [apply lookup_replicate_2; exact Htask |].
    split; [rewrite unfilled_replicate; reflexivity |].
    intros es. destruct (length (ts1 ++ ts2)%list); [lia | discriminate]. }
  destruct (settle_all_reject host (ts1 ++ ts2)%list _ _ _ schedule _ w2 Htask eq_refl Hinit)
    as (st & w' & Hst & (_ & _ & Hnot) & Hsome).
  specialize (Hsome (or_intror Hin)).
  unfold run, fetch_all_with, mbind, M_bind. rewrite H1, H2, Hst. cbn [fst].
  destruct (outcome st) as [[e | es] |]; [| exfalso; exact (Hnot es eq_refl) | contradiction].
  exists e. reflexivity.
Qed.

Lemma unbuildable_definition_rejects_all_witness :
  [offsetless_query] !! 0%nat = Some offsetless_query
  /\ range_unit offsetless_query = Some "day"
  /\ range_offset offsetless_query = None
  /\ (length queries + 0)%nat ∈ [0; 1; 2; 3; 4; 5; 6]%nat
  /\ exists e,
       run (fetch_all_with healthy_host queries [offsetless_query]
              [0; 1; 2; 3; 4; 5; 6]%nat) = Return (Some (Throw e)).
Proof.
  assert (Hin : (length queries + 0)%nat ∈ [0; 1; 2; 3; 4; 5; 6]%nat)
    by (repeat constructor).
  split; [reflexivity |]. split; [reflexivity |]. split; [reflexivity |].
  split; [exact Hin |].
  apply (unbuildable_definition_rejects_all healthy_host queries [offsetless_query]
           [0; 1; 2; 3; 4; 5; 6]%nat 0 offsetless_query);
    [reflexivity | reflexivity | reflexivity | exact Hin].
Defined.

(** ** Values as text *)

(** Numbers from [2 ^ 53] on print their shortest digits, padded with zeros,
    and from [10 ^ 21] on in exponent form. *)
Example numbers_as_text :
  List.map Number_toString
    [0; -5; 404; 2 ^ 53 + 1; 2 ^ 60; 10 ^ 21 - 1; 10 ^ 21; 123456789 * 10 ^ 20;
     99999999999999991611392; 2 ^ 1024]
  = ["0"; "-5"; "404"; "9007199254740992"; "1152921504606847000"; "1e+21"; "1e+21";
     "1.23456789e+28"; "1e+23"; "Infinity"].
Proof. vm_compute. reflexivity. Qed.

Example values_as_text :
  List.map ToString
    [JArr [JNum 1; JNull; JStr "a"; JArr [JNum 2; JNum 3]]; JObj [("a", JNum 1)];
     JObj [("toString", JNum 1)]; JArr [JObj [("toString", JStr "x")]]]
  = [Return "1,,a,2,3"; Return "[object Object]";
     Throw (TypeError "Cannot convert object to primitive value");
     Throw (TypeError "Cannot convert object to primitive value")].
Proof. vm_compute. reflexivity. Qed.

(** An error envelope whose [error] is a large number, and one whose
    [error] cannot be converted. *)
Example unusual_error_fields :
  on_body (JObj [("status", JStr "error"); ("error", JNum (10 ^ 21))])
  = Throw (Error "Prometheus error: 1e+21")
  /\ on_body (JObj [("status", JStr "error"); ("error", JObj [("toString", JNull)])])
     = Throw (TypeError "Cannot convert object to primitive value").
Proof. split; vm_compute; reflexivity. Qed.

(** The service's refusal of a query, as it arrives with status 400. *)
Example refusal_is_a_status_error :
  and_then (d3_json (Responded (mkResponse 400 "Bad Request"
                                  (Return (error_envelope "bad query"))))) on_body
  = Throw (Error "400 Bad Request").
Proof. reflexivity. Qed.
